(** * GANVolumeRenderer: a shallow embedding of
      threestudio/models/renderers/gan_volume_renderer.py

    The renderer is an orchestrator: it resizes rays, calls a base volumetric
    renderer, splits its composite tensor, builds a latent distribution,
    runs one of three guidance branches through encoders and a generator,
    and assembles an output dictionary.

    The embedding keeps what the orchestrator itself decides:
    - tensors are handles (storage, shape, chain of views) onto a store of
      buffers, so that views, [clone] and [detach] alias as they do in torch;
    - the numerics of torch (what bilinear interpolation or concatenation
      compute) and the collaborators (base renderer, encoders, generator,
      distribution class) are parameters;
    - every allocating torch call and every collaborator call is recorded in
      a ghost trace, the way a test double records its invocations. *)

From stdpp Require Import gmap strings list fin_maps.
From Stdlib Require Import ZArith Lia.

Open Scope Z_scope.
Open Scope nat_scope.

(** ** Python results *)

Inductive exn :=
  | ValueError | KeyError | TypeError | IndexError | AttributeError
  | RuntimeError | UnboundLocalError
  | InvalidHandle            (* a handle outside the modelled store *)
  | CollaboratorError (tag : string).

Inductive Res (A : Type) :=
  | Ok (a : A)
  | Raise (e : exn).
Arguments Ok {A} a.
Arguments Raise {A} e.

(** ** Tensor handles *)

Definition loc := nat.

Inductive InterpMode := Nearest | Bilinear.

Inductive ViewOp :=
  | VPermute (dims : list nat)
  | VSliceLast (start : nat) (stop : option nat).

(** A tensor object: the buffer it reads, its sizes, and the views that
    were taken to reach it from the whole buffer. *)
Record Tensor := mkTensor {
  storage : loc;
  shape : list nat;
  views : list ViewOp
}.

Definition is_permutation (dims : list nat) (n : nat) : bool :=
  (length dims =? n) && forallb (λ i, existsb (Nat.eqb i) dims) (seq 0 n).

(** [t.permute(dims)]: a view; RuntimeError unless [dims] permutes the axes. *)
Definition permute (t : Tensor) (dims : list nat) : Res Tensor :=
  if is_permutation dims (length (shape t))
  then Ok (mkTensor (storage t) ((λ d, nth d (shape t) 0) <$> dims)
             (views t ++ [VPermute dims]))
  else Raise RuntimeError.

(** [t[..., start:stop]] for non-negative bounds: a view on the last axis,
    with Python's clamping of slice bounds; IndexError on a 0-d tensor. *)
Definition slice_last (t : Tensor) (start : nat) (stop : option nat) : Res Tensor :=
  match last (shape t) with
  | None => Raise IndexError
  | Some n =>
      let lo := start `min` n in
      let hi := default n stop `min` n in
      Ok (mkTensor (storage t) (removelast (shape t) ++ [hi - lo])
            (views t ++ [VSliceLast start stop]))
  end.

(** [t.detach()]: a tensor sharing the storage of [t]. Autograd is not part
    of the model, so nothing else distinguishes the result. *)
Definition detach (t : Tensor) : Tensor := t.

(** ** The platform: torch numerics, the global generator, collaborator state *)

Class Platform := {
  Data : Type;                       (* contents of a buffer *)
  view_data : ViewOp → Data → Data;
  interp_data : InterpMode → nat * nat → Data → Data;
  cat_data : nat → list Data → Data;
  Rng : Type;                        (* state of torch's global generator *)
  rng_randint : Z → Z → Rng → Z * Rng;
  rng_randint_range : ∀ lo hi g,
    (lo < hi)%Z → (lo ≤ (rng_randint lo hi g).1 < hi)%Z;
  Ext : Type;                        (* parameters and buffers of the modules *)
  DistPayload : Type                 (* fields of a distribution object *)
}.

(** Support of [torch.randint(lo, hi, ...)]: the integers of [lo, hi), each
    with the same probability by the contract of the primitive. *)
Definition randint_support (lo hi : Z) : list Z := seqZ lo (hi - lo).

Section Model.
Context `{Platform}.

(** What a collaborator can see and change. *)
Record State := mkState {
  heap : list Data;
  rng : Rng;
  ext : Ext
}.

(** A [DiagonalGaussianDistribution] object; [dist_id] is its identity. *)
Record Dist := mkDist {
  dist_id : nat;
  payload : DistPayload
}.

Inductive Value :=
  | VNone
  | VInt (z : Z)
  | VTensor (t : Tensor)
  | VDist (d : Dist)
  | VOpaque (tag : string).

Inductive Event :=
  | ERandint (lo hi : Z) (size : list nat) (res : list Z)
  | EInterpolate (input : Tensor) (size : nat * nat) (mode : InterpMode) (res : Tensor)
  | EClone (input res : Tensor)
  | ECat (tensors : list Tensor) (dim : nat) (res : Tensor)
  | EBaseRenderer (rays_o rays_d light_positions : Tensor) (bg_color : option Tensor)
      (kwargs : gmap string Value) (res : gmap string Value)
  | EGlobalEncoder (x res : Tensor)
  | ELocalEncoder (x res : Tensor)
  | EGenerator (x g_code res : Tensor)
  | EDistInit (parameters : Tensor) (res : Dist)
  | EDistSample (d : Dist) (res : Tensor)
  | EDistMode (d : Dist) (res : Tensor).

(** The orchestrator's view: the shared state, its own [nn.Module] flag,
    the counter of object identities, and the ghost trace. *)
Record World := mkWorld {
  st : State;
  training : bool;
  next_id : nat;
  trace : list Event
}.

Definition M (A : Type) : Type := World → Res A * World.

#[export] Instance M_ret : MRet M := λ A a w, (Ok a, w).
#[export] Instance M_bind : MBind M := λ A B k m w,
  match m w with
  | (Ok a, w1) => k a w1
  | (Raise e, w1) => (Raise e, w1)
  end.

Definition liftR {A} (r : Res A) : M A := λ w, (r, w).
Definition raise {A} (e : exn) : M A := liftR (Raise e).

(** Run a collaborator on the shared state. *)
Definition call {A} (f : State → Res A * State) : M A := λ w,
  let '(r, s) := f (st w) in (r, mkWorld s (training w) (next_id w) (trace w)).

Definition log (e : Event) : M () := λ w,
  (Ok (), mkWorld (st w) (training w) (next_id w) (trace w ++ [e])).

Definition fresh_id : M nat := λ w,
  (Ok (next_id w), mkWorld (st w) (training w) (S (next_id w)) (trace w)).

(** What a handle shows of the store. *)
Definition contents (t : Tensor) (h : list Data) : option Data :=
  (λ d, foldl (λ acc v, view_data v acc) d (views t)) <$> h !! storage t.

Definition read (t : Tensor) : M Data := λ w,
  match contents t (heap (st w)) with
  | Some d => (Ok d, w)
  | None => (Raise InvalidHandle, w)
  end.

(** A new buffer at the end of the store. *)
Definition alloc (sh : list nat) (d : Data) : M Tensor := λ w,
  (Ok (mkTensor (length (heap (st w))) sh []),
   mkWorld (mkState (heap (st w) ++ [d]) (rng (st w)) (ext (st w)))
     (training w) (next_id w) (trace w)).

(** In-place update of the buffer behind a handle, as a consumer of the
    output dictionary could do. *)
Definition mutate (t : Tensor) (d : Data) (h : list Data) : list Data :=
  <[storage t := d]> h.

(** *** torch *)

(** [torch.nn.functional.interpolate(input, size, mode=mode)] with a
    two-element [size]: the input must be 4-D (N, C, H, W); torch raises
    RuntimeError ("Input and output sizes should be greater than 0") when a
    spatial size of the input or of the output is 0, and rejects an input
    without channels; the result is a new tensor (N, C, size[0], size[1]). *)
Definition interpolate (input : Tensor) (size : nat * nat) (mode : InterpMode)
    : M Tensor :=
  match shape input with
  | [n; c; h; w] =>
      if bool_decide (0 < c ∧ 0 < h ∧ 0 < w ∧ 0 < size.1 ∧ 0 < size.2)
      then d ← read input;
           r ← alloc [n; c; size.1; size.2] (interp_data mode size d);
           log (EInterpolate input size mode r);;
           mret r
      else raise RuntimeError
  | _ => raise ValueError
  end.

(** [t.clone()]: a new buffer with what [t] shows. *)
Definition clone (t : Tensor) : M Tensor :=
  d ← read t;
  r ← alloc (shape t) d;
  log (EClone t r);;
  mret r.

(** [torch.cat(tensors, dim)]: the shapes must agree off [dim]; 1-D empty
    tensors are skipped (torch's legacy rule); the result is a new tensor. *)
Definition cat_shape (tensors : list Tensor) (dim : nat) : Res (list nat) :=
  match filter (λ t, shape t ≠ [0]) tensors with
  | [] => if tensors is [] then Raise RuntimeError else Ok [0]
  | t0 :: ts =>
      if bool_decide (dim < length (shape t0) ∧
           Forall (λ t, <[dim := 0]> (shape t) = <[dim := 0]> (shape t0)) ts)
      then Ok (<[dim := sum_list ((λ t, nth dim (shape t) 0) <$> (t0 :: ts))]>
                 (shape t0))
      else Raise RuntimeError
  end.

Definition cat (tensors : list Tensor) (dim : nat) : M Tensor :=
  sh ← liftR (cat_shape tensors dim);
  ds ← mapM read tensors;
  r ← alloc sh (cat_data dim ds);
  log (ECat tensors dim r);;
  mret r.

(** [torch.randint(lo, hi, size)]: as many draws as [size] has elements. *)
Fixpoint draws (lo hi : Z) (n : nat) (g : Rng) : list Z * Rng :=
  match n with
  | 0 => ([], g)
  | S n' => let '(v, g1) := rng_randint lo hi g in
            let '(vs, g2) := draws lo hi n' g1 in
            (v :: vs, g2)
  end.

Definition randint (lo hi : Z) (size : list nat) : M (list Z) :=
  if bool_decide (lo < hi)%Z
  then vs ← call (λ s, let '(vs, g) := draws lo hi (foldr Nat.mul 1 size) (rng s) in
                       (Ok vs, mkState (heap s) g (ext s)));
       log (ERandint lo hi size vs);;
       mret vs
  else raise RuntimeError.

(** [t.item()] on an integer tensor: exactly one element. *)
Definition item (vs : list Z) : Res Z :=
  match vs with
  | [v] => Ok v
  | _ => Raise RuntimeError
  end.

End Model.

#[export] Instance Res_ret : MRet Res := λ A a, Ok a.
#[export] Instance Res_bind : MBind Res := λ A B k r,
  match r with Ok a => k a | Raise e => Raise e end.

(** ** The collaborators *)

Section Renderer.
Context `{Platform}.

(** The renderer interface the base renderer implements: calling it, and
    the three lifecycle methods. [update_step] returns None, as its
    signature declares. *)
Record VolumeRenderer := {
  vr_forward : Tensor → Tensor → Tensor → option Tensor → gmap string Value →
               State → Res (gmap string Value) * State;
  vr_update_step : Z → Z → bool → State → Res () * State;
  vr_train : bool → State → Res Value * State;
  vr_eval : State → Res Value * State
}.

(** The class [DiagonalGaussianDistribution] of
    threestudio.utils.GAN.distribution: its constructor and two methods. *)
Class DistributionClass := {
  dist_init : Tensor → State → Res DistPayload * State;
  dist_sample : DistPayload → State → Res Tensor * State;
  dist_mode : DistPayload → State → Res Tensor * State
}.
Context `{DistributionClass}.

(** [self] after [configure]. *)
Record GANVolumeRenderer := {
  base_renderer : VolumeRenderer;
  generator : Tensor → Tensor → State → Res Tensor * State;
  local_encoder : Tensor → State → Res Tensor * State;
  global_encoder : Tensor → State → Res Tensor * State;
  discriminator : Tensor → State → Res Tensor * State
}.

Definition DiagonalGaussianDistribution (parameters : Tensor) : M Dist :=
  p ← call (dist_init parameters);
  i ← fresh_id;
  log (EDistInit parameters (mkDist i p));;
  mret (mkDist i p).

Definition sample (d : Dist) : M Tensor :=
  z ← call (dist_sample (payload d));
  log (EDistSample d z);;
  mret z.

Definition mode (d : Dist) : M Tensor :=
  z ← call (dist_mode (payload d));
  log (EDistMode d z);;
  mret z.

Definition run_base_renderer (self : GANVolumeRenderer)
    (rays_o rays_d light_positions : Tensor) (bg_color : option Tensor)
    (kwargs : gmap string Value) : M (gmap string Value) :=
  out ← call (vr_forward (base_renderer self) rays_o rays_d light_positions
                bg_color kwargs);
  log (EBaseRenderer rays_o rays_d light_positions bg_color kwargs out);;
  mret out.

Definition run_global_encoder (self : GANVolumeRenderer) (x : Tensor) : M Tensor :=
  r ← call (global_encoder self x);
  log (EGlobalEncoder x r);;
  mret r.

Definition run_local_encoder (self : GANVolumeRenderer) (x : Tensor) : M Tensor :=
  r ← call (local_encoder self x);
  log (ELocalEncoder x r);;
  mret r.

Definition run_generator (self : GANVolumeRenderer) (x g_code : Tensor) : M Tensor :=
  r ← call (generator self x g_code);
  log (EGenerator x g_code r);;
  mret r.

(** ** GANVolumeRenderer.forward *)

(** [B, H, W, _ = rays_o.shape] *)
Definition unpack_shape4 (t : Tensor) : Res (nat * nat * nat * nat) :=
  match shape t with
  | [b; h; w; c] => Ok (b, h, w, c)
  | _ => Raise ValueError
  end.

(** [d[k]] for a value that is then indexed as a tensor. *)
Definition getitem_tensor (d : gmap string Value) (k : string) : Res Tensor :=
  match d !! k with
  | None => Raise KeyError
  | Some (VTensor t) => Ok t
  | Some _ => Raise TypeError
  end.

(** [gt_rgb.permute(...)] when [gt_rgb] may be None. *)
Definition gt_permute (gt_rgb : option Tensor) (dims : list nat) : Res Tensor :=
  match gt_rgb with
  | Some t => permute t dims
  | None => Raise AttributeError
  end.

(** Lines 66-72: the guidance level. *)
Definition choose_generator_level (gt_rgb : option Tensor)
    (multi_level_guidance : bool) : M Z :=
  if bool_decide (is_Some gt_rgb) && multi_level_guidance
  then vs ← randint 0 3 [1]; liftR (item vs)
  else mret 0%Z.

(** Lines 73-74 and 75-76: the same expression on [rays_o] and [rays_d]. *)
Definition downsample_rays (rays : Tensor) (H W : nat) : M Tensor :=
  p ← liftR (permute rays [0; 3; 1; 2]);
  r ← interpolate p (H / 4, W / 4) Bilinear;
  liftR (permute r [0; 2; 3; 1]).

(** Lines 90-102: the branch on the level. It yields the (possibly rebound)
    [posterior] and [comp_gan_rgb], which stays unbound when no branch
    matches. *)
Definition guidance_branch (self : GANVolumeRenderer) (generator_level : Z)
    (gt_rgb : option Tensor) (lr_rgb : Tensor) (posterior : Dist)
    (z_map : Tensor) : M (Dist * option Tensor) :=
  if (generator_level =? 0)%Z then
    x ← interpolate lr_rgb (224, 224) Nearest;
    g_code_rgb ← run_global_encoder self x;
    c ← cat [lr_rgb; z_map] 1;
    comp_gan_rgb ← run_generator self c g_code_rgb;
    mret (posterior, Some comp_gan_rgb)
  else if (generator_level =? 1)%Z then
    p ← liftR (gt_permute gt_rgb [0; 3; 1; 2]);
    x ← interpolate p (224, 224) Nearest;
    g_code_rgb ← run_global_encoder self x;
    c ← cat [lr_rgb; z_map] 1;
    comp_gan_rgb ← run_generator self c g_code_rgb;
    mret (posterior, Some comp_gan_rgb)
  else if (generator_level =? 2)%Z then
    p ← liftR (gt_permute gt_rgb [0; 3; 1; 2]);
    x ← interpolate p (224, 224) Nearest;
    g_code_rgb ← run_global_encoder self x;
    p' ← liftR (gt_permute gt_rgb [0; 3; 1; 2]);
    l_code_rgb ← run_local_encoder self p';
    posterior ← DiagonalGaussianDistribution l_code_rgb;
    z_map ← sample posterior;
    c ← cat [lr_rgb; z_map] 1;
    comp_gan_rgb ← run_generator self c g_code_rgb;
    mret (posterior, Some comp_gan_rgb)
  else mret (posterior, None).

Definition forward (self : GANVolumeRenderer)
    (rays_o rays_d light_positions : Tensor) (bg_color gt_rgb : option Tensor)
    (multi_level_guidance : bool) (kwargs : gmap string Value)
    : M (gmap string Value) :=
  '(B, H, W, _) ← liftR (unpack_shape4 rays_o);
  generator_level ← choose_generator_level gt_rgb multi_level_guidance;
  rays_o ← downsample_rays rays_o H W;
  rays_d ← downsample_rays rays_d H W;
  out ← run_base_renderer self rays_o rays_d light_positions bg_color kwargs;
  let out := <["comp_gt_rgb" := from_option VTensor VNone gt_rgb]> out in
  comp_rgb ← liftR (c ← getitem_tensor out "comp_rgb"; slice_last c 0 (Some 3));
  latent ← liftR (c ← getitem_tensor out "comp_rgb"; slice_last c 3 None);
  lr ← clone comp_rgb;
  let out := <["comp_lr_rgb" := VTensor lr]> out in
  lp ← liftR (permute latent [0; 3; 1; 2]);
  posterior ← DiagonalGaussianDistribution lp;
  z_map ← sample posterior;
  lr_rgb ← liftR (p ← permute comp_rgb [0; 3; 1; 2]; mret (detach p));
  '(posterior, comp_gan_rgb) ←
    guidance_branch self generator_level gt_rgb lr_rgb posterior z_map;
  cp ← liftR (permute comp_rgb [0; 3; 1; 2]);
  comp_rgb ← interpolate cp (H, W) Bilinear;
  gan ← liftR (match comp_gan_rgb with
               | Some y => permute y [0; 2; 3; 1]
               | None => Raise UnboundLocalError
               end);
  up ← liftR (permute comp_rgb [0; 2; 3; 1]);
  mret (<["generator_level" := VInt generator_level]>
         (<["comp_rgb" := VTensor up]>
           (<["comp_gan_rgb" := VTensor gan]>
             (<["posterior" := VDist posterior]> out)))).

(** ** Lifecycle methods *)

Definition update_step (self : GANVolumeRenderer) (epoch global_step : Z)
    (on_load_weights : bool) : M () :=
  call (vr_update_step (base_renderer self) epoch global_step on_load_weights).

Definition train (self : GANVolumeRenderer) (mode : bool) : M Value :=
  call (vr_train (base_renderer self) mode).

Definition eval (self : GANVolumeRenderer) : M Value :=
  call (vr_eval (base_renderer self)).

End Renderer.

(** ** Observing a call

    Predicates on the trace and on the store in which the claims are
    stated, and the step-by-step description of a run. *)

Section Observations.
Context `{Platform} `{!DistributionClass}.

(** The events a computation appended to the trace. *)
Definition new_events (w w' : World) : list Event :=
  drop (length (trace w)) (trace w').

Definition is_randint (e : Event) : bool :=
  match e with ERandint _ _ _ _ => true | _ => false end.

Definition is_generator_call (e : Event) : bool :=
  match e with EGenerator _ _ _ => true | _ => false end.

(** The results of the [sample()] calls on the object [d]. *)
Definition samples_of (d : Dist) (evs : list Event) : list Tensor :=
  omap (λ e, match e with
             | EDistSample d' z => if dist_id d' =? dist_id d then Some z else None
             | _ => None
             end) evs.

Definition is_mode (e : Event) : bool :=
  match e with EDistMode _ _ => true | _ => false end.

(** The contract of the base renderer on its composite tensor: batch [B]
    and at least three channels, (B, h, w, 3 + L). *)
Definition composite_ok (B : nat) (out0 : gmap string Value) : bool :=
  match out0 !! "comp_rgb" with
  | Some (VTensor c) =>
      match shape c with
      | [b; _; _; C] => (b =? B) && (3 <=? C)
      | _ => false
      end
  | _ => false
  end.

(** Discipline of a collaborator on the store: it frees no buffer, and
    the tensor it returns reads one of its arguments' buffers or a buffer
    allocated during the call. *)
Definition keeps_buffers {A} (f : State → Res A * State) : Prop :=
  ∀ s r s', f s = (Ok r, s') → length (heap s) ≤ length (heap s').

Definition returns_argument_or_new (args : list Tensor)
    (f : State → Res Tensor * State) : Prop :=
  ∀ s r s', f s = (Ok r, s') →
    length (heap s) ≤ length (heap s') ∧
    (storage r ∈ storage <$> args ∨ length (heap s) ≤ storage r).

(** The rays the base renderer was called on, call by call. *)
Definition base_calls (evs : list Event) : list (Tensor * Tensor) :=
  omap (λ e, match e with
             | EBaseRenderer ro rd _ _ _ _ => Some (ro, rd)
             | _ => None
             end) evs.

(** What the base renderer returned, call by call. *)
Definition base_outputs (evs : list Event) : list (gmap string Value) :=
  omap (λ e, match e with EBaseRenderer _ _ _ _ _ o => Some o | _ => None end) evs.

(** The keys [forward] writes into the dictionary it got. *)
Definition orchestrator_keys : list string :=
  ["comp_gt_rgb"; "comp_lr_rgb"; "posterior"; "comp_gan_rgb"; "comp_rgb";
   "generator_level"].

(** The effect shared by the allocating torch calls: one buffer more, one
    event more, nothing else. *)
Definition allocated (w w' : World) (r : Tensor) (sh : list nat) (e : Event)
    : Prop :=
  ∃ d, r = mkTensor (length (heap (st w))) sh [] ∧
       w' = mkWorld (mkState (heap (st w) ++ [d]) (rng (st w)) (ext (st w)))
              (training w) (next_id w) (trace w ++ [e]).

(** The effect of a logged collaborator call. *)
Definition called {A} (f : State → Res A * State) (w w' : World) (r : A)
    (e : Event) : Prop :=
  ∃ s, f (st w) = (Ok r, s) ∧
       w' = mkWorld s (training w) (next_id w) (trace w ++ [e]).

(** The effect of constructing a distribution object. *)
Definition dist_built (parameters : Tensor) (w w' : World) (d : Dist) : Prop :=
  ∃ p s, dist_init parameters (st w) = (Ok p, s) ∧
         d = mkDist (next_id w) p ∧
         w' = mkWorld s (training w) (S (next_id w))
                (trace w ++ [EDistInit parameters d]).

(** The three ways through lines 90-102. *)
Inductive branch_run (self : GANVolumeRenderer) (gt_rgb : option Tensor)
    (lr_rgb : Tensor) (p1 : Dist) (z1 : Tensor) (w : World)
    : Z → Dist → Tensor → World → Prop :=
  | branch_level_0 n c h wd xg g sh x y w1 w2 w3 w4 :
      shape lr_rgb = [n; c; h; wd] →
      allocated w w1 xg [n; c; 224; 224]
        (EInterpolate lr_rgb (224, 224) Nearest xg) →
      called (global_encoder self xg) w1 w2 g (EGlobalEncoder xg g) →
      allocated w2 w3 x sh (ECat [lr_rgb; z1] 1 x) →
      called (generator self x g) w3 w4 y (EGenerator x g y) →
      branch_run self gt_rgb lr_rgb p1 z1 w 0 p1 y w4
  | branch_level_1 gt gtp n c h wd xg g sh x y w1 w2 w3 w4 :
      gt_rgb = Some gt →
      permute gt [0; 3; 1; 2] = Ok gtp →
      shape gtp = [n; c; h; wd] →
      allocated w w1 xg [n; c; 224; 224]
        (EInterpolate gtp (224, 224) Nearest xg) →
      called (global_encoder self xg) w1 w2 g (EGlobalEncoder xg g) →
      allocated w2 w3 x sh (ECat [lr_rgb; z1] 1 x) →
      called (generator self x g) w3 w4 y (EGenerator x g y) →
      branch_run self gt_rgb lr_rgb p1 z1 w 1 p1 y w4
  | branch_level_2 gt gtp n c h wd xg g l p2 z2 sh x y w1 w2 w3 w4 w5 w6 w7 :
      gt_rgb = Some gt →
      permute gt [0; 3; 1; 2] = Ok gtp →
      shape gtp = [n; c; h; wd] →
      allocated w w1 xg [n; c; 224; 224]
        (EInterpolate gtp (224, 224) Nearest xg) →
      called (global_encoder self xg) w1 w2 g (EGlobalEncoder xg g) →
      called (local_encoder self gtp) w2 w3 l (ELocalEncoder gtp l) →
      dist_built l w3 w4 p2 →
      called (dist_sample (payload p2)) w4 w5 z2 (EDistSample p2 z2) →
      allocated w5 w6 x sh (ECat [lr_rgb; z2] 1 x) →
      called (generator self x g) w6 w7 y (EGenerator x g y) →
      branch_run self gt_rgb lr_rgb p1 z1 w 2 p2 y w7.

(** All the intermediate values and worlds of a call of [forward] that
    returns. *)
Inductive forward_run (self : GANVolumeRenderer)
    (rays_o rays_d light_positions : Tensor) (bg_color gt_rgb : option Tensor)
    (multi_level_guidance : bool) (kwargs : gmap string Value)
    (w : World) (out : gmap string Value) (w' : World) : Prop :=
  | ForwardRun B Hh Ww C level w1 ro rd w2 w3 out0 w4 c comp latent lr w5
      lpm p1 w6 z1 w7 lr_rgb p y w8 n ch h wd up gan upp :
      shape rays_o = [B; Hh; Ww; C] →
      choose_generator_level gt_rgb multi_level_guidance w = (Ok level, w1) →
      downsample_rays rays_o Hh Ww w1 = (Ok ro, w2) →
      downsample_rays rays_d Hh Ww w2 = (Ok rd, w3) →
      called (vr_forward (base_renderer self) ro rd light_positions bg_color kwargs)
        w3 w4 out0 (EBaseRenderer ro rd light_positions bg_color kwargs out0) →
      out0 !! "comp_rgb" = Some (VTensor c) →
      slice_last c 0 (Some 3) = Ok comp →
      slice_last c 3 None = Ok latent →
      allocated w4 w5 lr (shape comp) (EClone comp lr) →
      permute latent [0; 3; 1; 2] = Ok lpm →
      dist_built lpm w5 w6 p1 →
      called (dist_sample (payload p1)) w6 w7 z1 (EDistSample p1 z1) →
      permute comp [0; 3; 1; 2] = Ok lr_rgb →
      branch_run self gt_rgb lr_rgb p1 z1 w7 level p y w8 →
      shape lr_rgb = [n; ch; h; wd] →
      allocated w8 w' up [n; ch; Hh; Ww]
        (EInterpolate lr_rgb (Hh, Ww) Bilinear up) →
      permute y [0; 2; 3; 1] = Ok gan →
      permute up [0; 2; 3; 1] = Ok upp →
      out = <["generator_level" := VInt level]>
              (<["comp_rgb" := VTensor upp]>
                (<["comp_gan_rgb" := VTensor gan]>
                  (<["posterior" := VDist p]>
                    (<["comp_lr_rgb" := VTensor lr]>
                      (<["comp_gt_rgb" := from_option VTensor VNone gt_rgb]>
                        out0))))) →
      forward_run self rays_o rays_d light_positions bg_color gt_rgb
        multi_level_guidance kwargs w out w'.

End Observations.

(** ** A concrete platform and concrete collaborators

    Buffers hold symbolic terms, the generator's state is a tape of raw
    draws, and every collaborator returns a new tensor. *)

Module Demo.

#[warnings="-register-all"] Inductive Sym :=
  | SInput (name : string)
  | SView (v : ViewOp) (d : Sym)
  | SInterp (m : InterpMode) (size : nat * nat) (d : Sym)
  | SCat (dim : nat) (ds : list Sym)
  | SApply (f : string) (args : list Sym).

Definition tape_randint (lo hi : Z) (g : list nat) : Z * list nat :=
  match g with
  | [] => (lo, [])
  | r :: g' => ((lo + Z.of_nat r `mod` (hi - lo))%Z, g')
  end.

Lemma tape_randint_range lo hi g :
  (lo < hi)%Z → (lo ≤ (tape_randint lo hi g).1 < hi)%Z.
Proof.
  intros Hlt. destruct g as [|r g']; simpl; [lia|].
  pose proof (Z.mod_pos_bound (Z.of_nat r) (hi - lo)). lia.
Qed.

#[export] Instance platform : Platform := {|
  Data := Sym;
  view_data := SView;
  interp_data := SInterp;
  cat_data := SCat;
  Rng := list nat;
  rng_randint := tape_randint;
  rng_randint_range := tape_randint_range;
  Ext := nat;
  DistPayload := Tensor
|}.

(** A collaborator that returns a new tensor of shape [sh] and counts its
    calls in the module state. *)
Definition fresh_tensor (f : string) (sh : list nat) (args : list Tensor)
    (s : State) : Res Tensor * State :=
  (Ok (mkTensor (length (heap s)) sh []),
   mkState (heap s ++ [SApply f (omap (λ t, contents t (heap s)) args)])
     (rng s) (S (ext s))).

Definition nerf_forward (rays_o rays_d light_positions : Tensor)
    (bg_color : option Tensor) (kwargs : gmap string Value) (s : State)
    : Res (gmap string Value) * State :=
  match shape rays_o with
  | [b; h; w; _] =>
      let '(_, s1) := fresh_tensor "comp_rgb" [b; h; w; 11] [rays_o; rays_d] s in
      let '(_, s2) := fresh_tensor "opacity" [b; h; w; 1] [rays_o; rays_d] s1 in
      (Ok (<["opacity" := VTensor (mkTensor (S (length (heap s))) [b; h; w; 1] [])]>
            (<["comp_rgb" := VTensor (mkTensor (length (heap s)) [b; h; w; 11] [])]> ∅)),
       s2)
  | _ => (Raise (CollaboratorError "rays"), s)
  end.

Definition nerf : VolumeRenderer := {|
  vr_forward := nerf_forward;
  vr_update_step := λ epoch global_step on_load_weights s,
    (Ok (), mkState (heap s) (rng s) (ext s + Z.to_nat global_step));
  vr_train := λ mode s, (Ok (VOpaque "base_renderer"), s);
  vr_eval := λ s, (Ok (VOpaque "base_renderer"), s)
|}.

#[export] Instance gaussian : DistributionClass := {|
  dist_init := λ parameters s, (Ok parameters, s);
  dist_sample := λ p s,
    match shape p with
    | [n; c; h; w] => fresh_tensor "sample" [n; c / 2; h; w] [p] s
    | _ => (Raise (CollaboratorError "parameters"), s)
    end;
  dist_mode := λ p s,
    match shape p with
    | [n; c; h; w] => fresh_tensor "mode" [n; c / 2; h; w] [p] s
    | _ => (Raise (CollaboratorError "parameters"), s)
    end
|}.

Definition self : GANVolumeRenderer := {|
  base_renderer := nerf;
  generator := λ x g s,
    match shape x with
    | [n; _; h; w] => fresh_tensor "generator" [n; 3; 4 * h; 4 * w] [x; g] s
    | _ => (Raise (CollaboratorError "generator"), s)
    end;
  local_encoder := λ x s,
    match shape x with
    | [n; _; h; w] => fresh_tensor "local_encoder" [n; 8; h / 4; w / 4] [x] s
    | _ => (Raise (CollaboratorError "local_encoder"), s)
    end;
  global_encoder := λ x s,
    match shape x with
    | [n; _; _; _] => fresh_tensor "global_encoder" [n; 64] [x] s
    | _ => (Raise (CollaboratorError "global_encoder"), s)
    end;
  discriminator := λ x s, fresh_tensor "discriminator" [1] [x] s
|}.

(** A caller's store: rays, light positions and a ground-truth image, and
    a tape whose first draw gives [level]. *)
Definition world (level : nat) : World :=
  mkWorld
    (mkState [SInput "rays_o"; SInput "rays_d"; SInput "light"; SInput "gt"]
       [level; 7; 5] 0)
    true 0 [].

Definition rays_o (side : nat) : Tensor := mkTensor 0 [1; side; side; 3] [].
Definition rays_d (side : nat) : Tensor := mkTensor 1 [1; side; side; 3] [].
Definition light_positions : Tensor := mkTensor 2 [1; 3] [].
Definition gt_rgb (side : nat) : Tensor := mkTensor 3 [1; side; side; 3] [].

Definition run (side level : nat) (gt : bool) (multi_level_guidance : bool)
    : Res (gmap string Value) * World :=
  forward self (rays_o side) (rays_d side) light_positions None
    (if gt then Some (gt_rgb side) else None) multi_level_guidance ∅
    (world level).

(** No ground truth, multi-level guidance requested. *)
Definition out_forced : gmap string Value :=
  Eval vm_compute in
    match (run 8 1 false true).1 with Ok o => o | Raise _ => ∅ end.
Definition world_forced : World := Eval vm_compute in (run 8 1 false true).2.

(** Ground truth given, multi-level guidance requested, the draw is 2. *)
Definition out_level2 : gmap string Value :=
  Eval vm_compute in
    match (run 8 2 true true).1 with Ok o => o | Raise _ => ∅ end.
Definition world_level2 : World := Eval vm_compute in (run 8 2 true true).2.

End Demo.

(** ** Every outcome of a call

    The claims follow the calls of [forward] that return. The properties
    below hold for every call, returning or raising; they are stated with
    a relation [R] between the shared state before and after, and a set [E]
    of exceptions. *)

Section Disciplines.
Context `{Platform} `{!DistributionClass}.

(** A result that is a value in [Q] or an exception in [E]. *)
Definition within {A} (E : exn → Prop) (Q : A → Prop) (r : Res A) : Prop :=
  match r with Ok a => Q a | Raise e => E e end.

(** Every run of [m], returning or raising, takes the shared state to an
    [R]-related one, returns a value in [Q] or raises an exception in [E]. *)
Definition outcome {A} (R : State → State → Prop) (E : exn → Prop)
    (Q : A → Prop) (m : M A) : Prop :=
  ∀ w r w', m w = (r, w') →
    R (st w) (st w') ∧ match r with Ok a => Q a | Raise e => E e end.

(** The same for a collaborator. *)
Definition respects {A} (R : State → State → Prop) (E : exn → Prop)
    (f : State → Res A * State) : Prop :=
  ∀ s r s', f s = (r, s') →
    R s s' ∧ match r with Ok _ => True | Raise e => E e end.

(** A property of every callable [forward] can reach through [self] and
    the distribution class. *)
Definition collaborators (P : ∀ A, (State → Res A * State) → Prop)
    (self : GANVolumeRenderer) : Prop :=
  (∀ ro rd lp bg kw, P _ (vr_forward (base_renderer self) ro rd lp bg kw)) ∧
  (∀ x, P _ (global_encoder self x)) ∧
  (∀ x, P _ (local_encoder self x)) ∧
  (∀ x g, P _ (generator self x g)) ∧
  (∀ x, P _ (dist_init x)) ∧
  (∀ p, P _ (dist_sample p)).

(** The store after holds the store before, buffer by buffer, and
    possibly new buffers behind. *)
Definition extends_store (s s' : State) : Prop := heap s `prefix_of` heap s'.

(** The exceptions the lines of [forward] raise themselves: unpacking the
    shape, indexing the dictionary and the tensor, and the checks of torch
    on views, sizes and handles. *)
Definition own_errors : list exn :=
  [ValueError; KeyError; TypeError; IndexError; RuntimeError; InvalidHandle].

(** An exception a collaborator raises as its own. *)
Definition collaborator_error (e : exn) : Prop :=
  ∃ tag, e = CollaboratorError tag.

(** A collaborator that returns a tensor of the store. *)
Definition returns_stored (f : State → Res Tensor * State) : Prop :=
  ∀ s r s', f s = (Ok r, s') → storage r < length (heap s').

(** A result with the ground truth written back under [comp_gt_rgb]. *)
Definition echo_gt (gt_rgb : option Tensor) (r : Res (gmap string Value) * World)
    : Res (gmap string Value) * World :=
  (match r.1 with
   | Ok out => Ok (<["comp_gt_rgb" := from_option VTensor VNone gt_rgb]> out)
   | Raise e => Raise e
   end, r.2).

(** Contracts on sizes. The base renderer returns a composite tensor of
    the batch and spatial size of the rays it is given, with at least
    three channels. The generator, a decoder with two upsampling stages
    ([ch_mult=(1,2,4)], [out_ch=3] in [configure]), returns three channels
    at four times the spatial size of its input. *)
Definition base_keeps_size (b : VolumeRenderer) : Prop :=
  ∀ ro rd lp bg kw s out0 s' n h wd c0,
    vr_forward b ro rd lp bg kw s = (Ok out0, s') →
    shape ro = [n; h; wd; c0] →
    ∃ c C, out0 !! "comp_rgb" = Some (VTensor c) ∧
           shape c = [n; h; wd; C] ∧ 3 ≤ C.

Definition generator_upsamples_4x self : Prop :=
  ∀ x g s y s' n c h wd,
    generator self x g s = (Ok y, s') →
    shape x = [n; c; h; wd] →
    shape y = [n; 3; 4 * h; 4 * wd].

(** The calls of the global encoder: argument and result. *)
Definition global_encoder_calls (evs : list Event) : list (Tensor * Tensor) :=
  omap (λ e, match e with EGlobalEncoder x g => Some (x, g) | _ => None end) evs.

(** The distribution objects constructed, in order. *)
Definition dists_built (evs : list Event) : list Dist :=
  omap (λ e, match e with EDistInit _ d => Some d | _ => None end) evs.

End Disciplines.

(** Base renderers that fail: one raises, one returns a dictionary
    without the composite tensor. *)
Module Faulty.
Import Demo.

Definition nerf_raising : VolumeRenderer := {|
  vr_forward := λ rays_o rays_d light_positions bg_color kwargs s,
    (Raise (CollaboratorError "out of memory"), s);
  vr_update_step := vr_update_step nerf;
  vr_train := vr_train nerf;
  vr_eval := vr_eval nerf
|}.

Definition nerf_bare : VolumeRenderer := {|
  vr_forward := λ rays_o rays_d light_positions bg_color kwargs s,
    let '(r, s1) := fresh_tensor "opacity" [1] [rays_o; rays_d] s in
    (match r with
     | Ok t => Ok (<["opacity" := VTensor t]> ∅)
     | Raise e => Raise e
     end, s1);
  vr_update_step := vr_update_step nerf;
  vr_train := vr_train nerf;
  vr_eval := vr_eval nerf
|}.

Definition with_base (b : VolumeRenderer) : GANVolumeRenderer := {|
  base_renderer := b;
  generator := generator self;
  local_encoder := local_encoder self;
  global_encoder := global_encoder self;
  discriminator := discriminator self
|}.

(** The 8 x 8 rays after lines 73-76, and the store at the base
    renderer's call. *)
Definition ro8 : Tensor := mkTensor 4 [1; 2; 2; 3] [VPermute [0; 2; 3; 1]].
Definition rd8 : Tensor := mkTensor 5 [1; 2; 2; 3] [VPermute [0; 2; 3; 1]].
Definition world_ro8 : World :=
  Eval vm_compute in (downsample_rays (rays_o 8) 8 8 (world 0)).2.
Definition world_rd8 : World :=
  Eval vm_compute in (downsample_rays (rays_d 8) 8 8 world_ro8).2.

(** What [nerf_bare] returns there. *)
Definition out_bare : gmap string Value :=
  Eval vm_compute in
    match (vr_forward nerf_bare ro8 rd8 light_positions None ∅ (st world_rd8)).1
    with Ok o => o | Raise _ => ∅ end.
Definition state_bare : State :=
  Eval vm_compute in
    (vr_forward nerf_bare ro8 rd8 light_positions None ∅ (st world_rd8)).2.

End Faulty.

(** ** The law of the level

    Probabilities are counted on an ensemble: a list of states of torch's
    global generator, each as likely as any other. The world is the same
    over the ensemble, except for the generator. *)

Section Ensembles.
Context `{Platform} `{!DistributionClass}.

(** The world [w] with the generator in state [g]. *)
Definition with_rng (g : Rng) (w : World) : World :=
  mkWorld (mkState (heap (st w)) g (ext (st w)))
    (training w) (next_id w) (trace w).

(** How many members of the ensemble satisfy [P]. *)
Definition count {A} (P : A → bool) (Ω : list A) : nat :=
  length (List.filter P Ω).

(** The states the generator is left in by those draws of
    [randint(lo, hi)] over the ensemble that give [v]. *)
Definition after_draw (lo hi v : Z) (Ω : list Rng) : list Rng :=
  omap (λ g, if bool_decide ((rng_randint lo hi g).1 = v)
             then Some (rng_randint lo hi g).2 else None) Ω.

(** The contract of [torch.randint(lo, hi, ...)] on an ensemble, [n] draws
    deep: every value of the support is drawn on the same share of the
    ensemble, and the states left after each value form an ensemble with
    the same property one draw less deep. This is what uniform and
    independent draws mean on a finite sample space. *)
Fixpoint fair (lo hi : Z) (n : nat) (Ω : list Rng) : bool :=
  match n with
  | 0 => true
  | S n' =>
      forallb (λ v,
        (length (after_draw lo hi v Ω) * length (randint_support lo hi)
           =? length Ω) &&
        fair lo hi n' (after_draw lo hi v Ω))
      (randint_support lo hi)
  end.

(** A use of the generator that keeps it as good: fair ensembles are taken
    to fair ensembles (no use at all, or the consumption of a number of
    raw words that does not depend on the words). *)
Definition fair_map (T : Rng → Rng) : Prop :=
  ∀ lo hi n Ω, fair lo hi n Ω = true → fair lo hi n (T <$> Ω) = true.

(** States and worlds that differ at most in the generator, in what the
    buffers hold and in the ghost trace. *)
Definition alike_state (s s' : State) : Prop :=
  length (heap s) = length (heap s') ∧ ext s = ext s'.

Definition alike (w w' : World) : Prop :=
  alike_state (st w) (st w') ∧ next_id w = next_id w'.

(** A collaborator whose result (handles, shapes, keys) and whose use of
    the generator do not depend on the values the generator gives: on
    alike states it returns the same and advances the generator by the
    same fair map. *)
Definition oblivious {A} (f : State → Res A * State) : Prop :=
  ∀ s, ∃ T, fair_map T ∧
    ∀ s', alike_state s s' →
      (f s').1 = (f s).1 ∧ alike_state (f s).2 (f s').2 ∧
      rng (f s').2 = T (rng s').

(** The same for a computation of the orchestrator. *)
Definition steady {A} (m : M A) : Prop :=
  ∀ w, ∃ T, fair_map T ∧
    ∀ w', alike w w' →
      (m w').1 = (m w).1 ∧ alike (m w).2 (m w').2 ∧
      rng (st (m w').2) = T (rng (st w')).

(** The level choice returned [v]. *)
Definition level_is (v : Z) (r : Res Z) : bool :=
  match r with Ok x => bool_decide (x = v) | Raise _ => false end.

End Ensembles.

(** The nine tapes of two draws, for the concrete platform. *)
Module Dice.
Import Demo.

Definition two_draws : list Rng :=
  r1 ← [0; 1; 2]; r2 ← [0; 1; 2]; [[r1; r2]].

End Dice.

(** * Reasoning about runs *)

Section Inversion.
Context `{Platform} `{!DistributionClass}.

Lemma bind_Ok {A B} (m : M A) (k : A → M B) w b w' :
  (m ≫= k) w = (Ok b, w') →
  ∃ a w1, m w = (Ok a, w1) ∧ k a w1 = (Ok b, w').
Proof.
  unfold mbind, M_bind. destruct (m w) as [[a|e] w1]; [eauto | discriminate].
Qed.

Lemma ret_Ok {A} (a b : A) (w w' : World) :
  (mret a : M A) w = (Ok b, w') → b = a ∧ w' = w.
Proof. unfold mret, M_ret. by intros [= -> ->]. Qed.

Lemma liftR_Ok {A} (r : Res A) (a : A) (w w' : World) :
  liftR r w = (Ok a, w') → r = Ok a ∧ w' = w.
Proof. unfold liftR. by intros [= -> ->]. Qed.

Lemma res_bind_Ok {A B} (r : Res A) (k : A → Res B) b :
  r ≫= k = Ok b → ∃ a, r = Ok a ∧ k a = Ok b.
Proof. unfold mbind, Res_bind. destruct r; [eauto | discriminate]. Qed.

Lemma call_Ok {A} (f : State → Res A * State) w a w' :
  call f w = (Ok a, w') →
  ∃ s, f (st w) = (Ok a, s) ∧ w' = mkWorld s (training w) (next_id w) (trace w).
Proof.
  unfold call. destruct (f (st w)) as [r s]. intros [= -> <-]. eauto.
Qed.

Lemma read_Ok t w d w' :
  read t w = (Ok d, w') → contents t (heap (st w)) = Some d ∧ w' = w.
Proof.
  unfold read. destruct (contents t (heap (st w))); [|discriminate].
  by intros [= -> ->].
Qed.

Lemma mapM_read_Ok ts w ds w' :
  mapM read ts w = (Ok ds, w') → w' = w.
Proof.
  revert ds w'. induction ts as [|t ts IH]; intros ds w' Hrun; simpl in Hrun.
  - by apply ret_Ok in Hrun as [_ ->].
  - apply bind_Ok in Hrun as (d & w1 & Hd & Hrun).
    apply read_Ok in Hd as [_ ->].
    apply bind_Ok in Hrun as (ds' & w2 & Hds & Hrun).
    apply IH in Hds as ->. by apply ret_Ok in Hrun as [_ ->].
Qed.

Lemma interpolate_Ok input size m w r w' :
  interpolate input size m w = (Ok r, w') →
  ∃ n c h wd,
    shape input = [n; c; h; wd] ∧
    (0 < c ∧ 0 < h ∧ 0 < wd ∧ 0 < size.1 ∧ 0 < size.2) ∧
    allocated w w' r [n; c; size.1; size.2] (EInterpolate input size m r).
Proof.
  unfold interpolate, raise. intros Hrun.
  destruct (shape input) as [|n [|c [|h [|wd [|? ?]]]]];
    try (by apply liftR_Ok in Hrun as [? _]).
  case_bool_decide as Hpos; [|by apply liftR_Ok in Hrun as [? _]].
  apply bind_Ok in Hrun as (d & w1 & Hd & Hrun).
  apply read_Ok in Hd as [_ ->].
  apply bind_Ok in Hrun as (r1 & w2 & Hr & Hrun).
  unfold alloc in Hr. injection Hr as <- <-.
  apply bind_Ok in Hrun as ([] & w3 & Hl & Hrun).
  unfold log in Hl. injection Hl as <-.
  apply ret_Ok in Hrun as [-> ->].
  exists n, c, h, wd. split; [done|]. split; [done|].
  eexists. split; reflexivity.
Qed.

Lemma clone_Ok t w r w' :
  clone t w = (Ok r, w') → allocated w w' r (shape t) (EClone t r).
Proof.
  unfold clone. intros Hrun.
  apply bind_Ok in Hrun as (d & w1 & Hd & Hrun).
  apply read_Ok in Hd as [_ ->].
  apply bind_Ok in Hrun as (r1 & w2 & Hr & Hrun).
  unfold alloc in Hr. injection Hr as <- <-.
  apply bind_Ok in Hrun as ([] & w3 & Hl & Hrun).
  unfold log in Hl. injection Hl as <-.
  apply ret_Ok in Hrun as [-> ->].
  eexists. split; reflexivity.
Qed.

Lemma cat_Ok ts dim w r w' :
  cat ts dim w = (Ok r, w') →
  ∃ sh, cat_shape ts dim = Ok sh ∧ allocated w w' r sh (ECat ts dim r).
Proof.
  unfold cat. intros Hrun.
  apply bind_Ok in Hrun as (sh & w0 & Hsh & Hrun).
  apply liftR_Ok in Hsh as [Hsh ->].
  apply bind_Ok in Hrun as (ds & w1 & Hd & Hrun).
  apply mapM_read_Ok in Hd as ->.
  apply bind_Ok in Hrun as (r1 & w2 & Hr & Hrun).
  unfold alloc in Hr. injection Hr as <- <-.
  apply bind_Ok in Hrun as ([] & w3 & Hl & Hrun).
  unfold log in Hl. injection Hl as <-.
  apply ret_Ok in Hrun as [-> ->].
  exists sh. split; [done|]. eexists. split; reflexivity.
Qed.

Lemma logged_call_Ok {A} (f : State → Res A * State) (ev : A → Event) w r w' :
  (x ← call f; log (ev x);; mret x) w = (Ok r, w') →
  called f w w' r (ev r).
Proof.
  intros Hrun.
  apply bind_Ok in Hrun as (x & w1 & Hc & Hrun).
  apply call_Ok in Hc as (s & Hf & ->).
  apply bind_Ok in Hrun as ([] & w2 & Hl & Hrun).
  unfold log in Hl. injection Hl as <-.
  apply ret_Ok in Hrun as [-> ->].
  exists s. split; [done|reflexivity].
Qed.

Lemma DiagonalGaussianDistribution_Ok parameters w d w' :
  DiagonalGaussianDistribution parameters w = (Ok d, w') →
  ∃ p s, dist_init parameters (st w) = (Ok p, s) ∧
         d = mkDist (next_id w) p ∧
         w' = mkWorld s (training w) (S (next_id w))
                (trace w ++ [EDistInit parameters d]).
Proof.
  unfold DiagonalGaussianDistribution. intros Hrun.
  apply bind_Ok in Hrun as (p & w1 & Hc & Hrun).
  apply call_Ok in Hc as (s & Hf & ->).
  apply bind_Ok in Hrun as (i & w2 & Hi & Hrun).
  unfold fresh_id in Hi. injection Hi as <- <-.
  apply bind_Ok in Hrun as ([] & w3 & Hl & Hrun).
  unfold log in Hl. injection Hl as <-.
  apply ret_Ok in Hrun as [-> ->].
  exists p, s. split; [done|]. split; reflexivity.
Qed.

End Inversion.

(** * Runs of [forward], step by step *)

Section Runs.
Context `{Platform} `{!DistributionClass}.
Implicit Types (w : World) (t : Tensor).

Lemma permute_0312_Ok t p :
  permute t [0; 3; 1; 2] = Ok p →
  ∃ a b c d, shape t = [a; b; c; d] ∧
    p = mkTensor (storage t) [a; d; b; c] (views t ++ [VPermute [0; 3; 1; 2]]).
Proof.
  unfold permute. destruct t as [l sh vs]; simpl.
  destruct sh as [|a [|b [|c [|d [|? ?]]]]]; simpl; try discriminate.
  intros [= <-]. by exists a, b, c, d.
Qed.

Lemma permute_0231_Ok t p :
  permute t [0; 2; 3; 1] = Ok p →
  ∃ a b c d, shape t = [a; b; c; d] ∧
    p = mkTensor (storage t) [a; c; d; b] (views t ++ [VPermute [0; 2; 3; 1]]).
Proof.
  unfold permute. destruct t as [l sh vs]; simpl.
  destruct sh as [|a [|b [|c [|d [|? ?]]]]]; simpl; try discriminate.
  intros [= <-]. by exists a, b, c, d.
Qed.

Lemma permute_storage t dims p : permute t dims = Ok p → storage p = storage t.
Proof. unfold permute. case_match; [|discriminate]. by intros [= <-]. Qed.

Lemma slice_last_shape4 t start stop r b h wd C :
  slice_last t start stop = Ok r →
  shape t = [b; h; wd; C] →
  shape r = [b; h; wd; (default C stop `min` C) - (start `min` C)] ∧
  views r = views t ++ [VSliceLast start stop].
Proof.
  unfold slice_last. intros Hs Hsh. rewrite Hsh in Hs. simpl in Hs.
  by injection Hs as <-.
Qed.

(** The level: without a draw, or from one draw of [randint(0, 3, (1,))]. *)
Lemma choose_level_forced gt_rgb multi_level_guidance w :
  gt_rgb = None ∨ multi_level_guidance = false →
  choose_generator_level gt_rgb multi_level_guidance w = (Ok 0%Z, w).
Proof.
  unfold choose_generator_level.
  intros [-> | ->]; [done|]. by rewrite andb_false_r.
Qed.

Lemma choose_level_drawn gt w :
  choose_generator_level (Some gt) true w =
    (Ok (rng_randint 0 3 (rng (st w))).1,
     mkWorld (mkState (heap (st w)) (rng_randint 0 3 (rng (st w))).2 (ext (st w)))
       (training w) (next_id w)
       (trace w ++ [ERandint 0 3 [1] [(rng_randint 0 3 (rng (st w))).1]])).
Proof.
  unfold choose_generator_level, randint, mbind, M_bind, call, log, liftR; simpl.
  by destruct (rng_randint 0 3 (rng (st w))) as [v g].
Qed.

Lemma choose_level_Ok gt_rgb multi_level_guidance w level w1 :
  choose_generator_level gt_rgb multi_level_guidance w = (Ok level, w1) →
  ∃ g evs,
    w1 = mkWorld (mkState (heap (st w)) g (ext (st w)))
           (training w) (next_id w) (trace w ++ evs) ∧
    ((is_Some gt_rgb ∧ multi_level_guidance = true ∧
      rng_randint 0 3 (rng (st w)) = (level, g) ∧
      evs = [ERandint 0 3 [1] [level]]) ∨
     ((gt_rgb = None ∨ multi_level_guidance = false) ∧
      level = 0%Z ∧ g = rng (st w) ∧ evs = [])).
Proof.
  destruct gt_rgb as [gt|], multi_level_guidance.
  - rewrite choose_level_drawn. intros [= <- <-].
    eexists _, _. split; [reflexivity|]. left.
    split; [by eexists|]. split; [done|]. split; [|done].
    by destruct (rng_randint 0 3 (rng (st w))).
  - rewrite choose_level_forced by auto. intros [= <- <-].
    exists (rng (st w)), []. rewrite app_nil_r.
    split; [by destruct w as [[] ? ? ?]|]. right; auto.
  - rewrite choose_level_forced by auto. intros [= <- <-].
    exists (rng (st w)), []. rewrite app_nil_r.
    split; [by destruct w as [[] ? ? ?]|]. right; auto.
  - rewrite choose_level_forced by auto. intros [= <- <-].
    exists (rng (st w)), []. rewrite app_nil_r.
    split; [by destruct w as [[] ? ? ?]|]. right; auto.
Qed.

(** The ray downsampler: one view, one new buffer, one view. *)
Lemma downsample_rays_Ok rays Hh Ww w r w' :
  downsample_rays rays Hh Ww w = (Ok r, w') →
  ∃ b h wd c p i,
    shape rays = [b; h; wd; c] ∧
    permute rays [0; 3; 1; 2] = Ok p ∧
    (0 < c ∧ 0 < h ∧ 0 < wd ∧ 4 ≤ Hh ∧ 4 ≤ Ww) ∧
    allocated w w' i [b; c; Hh / 4; Ww / 4]
      (EInterpolate p (Hh / 4, Ww / 4) Bilinear i) ∧
    r = mkTensor (length (heap (st w))) [b; Hh / 4; Ww / 4; c]
          [VPermute [0; 2; 3; 1]].
Proof.
  unfold downsample_rays. intros Hrun.
  apply bind_Ok in Hrun as (p & w0 & Hp & Hrun).
  apply liftR_Ok in Hp as [Hp ->].
  apply bind_Ok in Hrun as (i & w1 & Hi & Hrun).
  apply liftR_Ok in Hrun as [Hr ->].
  destruct (permute_0312_Ok _ _ Hp) as (b & h & wd & c & Hsh & Hpe).
  apply interpolate_Ok in Hi as (n' & c' & h' & wd' & Hsh' & Hpos & Hal).
  rewrite Hpe in Hsh'. simpl in Hsh'. injection Hsh' as <- <- <- <-.
  cbn [fst snd] in Hpos. destruct Hpos as (Hc & Hh' & Hw' & Ho1 & Ho2).
  exists b, h, wd, c, p, i. split; [done|]. split; [done|]. split.
  { repeat split; try done.
    - destruct (decide (4 ≤ Hh)) as [|Hn]; [done|].
      rewrite Nat.div_small in Ho1 by lia. lia.
    - destruct (decide (4 ≤ Ww)) as [|Hn]; [done|].
      rewrite Nat.div_small in Ho2 by lia. lia. }
  split; [done|].
  destruct Hal as (d & -> & _). by injection Hr as <-.
Qed.

Lemma gt_permute_Ok gt_rgb dims p :
  gt_permute gt_rgb dims = Ok p → ∃ gt, gt_rgb = Some gt ∧ permute gt dims = Ok p.
Proof. destruct gt_rgb as [gt|]; [eauto | discriminate]. Qed.

Lemma guidance_branch_Ok self level gt_rgb lr_rgb p1 z1 w p o w' :
  guidance_branch self level gt_rgb lr_rgb p1 z1 w = (Ok (p, o), w') →
  o = None ∨ ∃ y, o = Some y ∧ branch_run self gt_rgb lr_rgb p1 z1 w level p y w'.
Proof.
  unfold guidance_branch. intros Hrun.
  destruct (level =? 0)%Z eqn:E0; [apply Z.eqb_eq in E0 as ->|].
  { apply bind_Ok in Hrun as (xg & w1 & Hx & Hrun).
    apply interpolate_Ok in Hx as (n & c & h & wd & Hsh & _ & Hx).
    apply bind_Ok in Hrun as (g & w2 & Hg & Hrun).
    apply logged_call_Ok in Hg.
    apply bind_Ok in Hrun as (x & w3 & Hc & Hrun).
    apply cat_Ok in Hc as (sh & _ & Hc).
    apply bind_Ok in Hrun as (y & w4 & Hy & Hrun).
    apply logged_call_Ok in Hy.
    apply ret_Ok in Hrun as [[= -> ->] ->].
    right. eexists. split; [done|]. by eapply branch_level_0. }
  destruct (level =? 1)%Z eqn:E1; [apply Z.eqb_eq in E1 as ->|].
  { apply bind_Ok in Hrun as (gtp & w0 & Hp & Hrun).
    apply liftR_Ok in Hp as [Hp ->].
    apply gt_permute_Ok in Hp as (gt & Hgt & Hp).
    apply bind_Ok in Hrun as (xg & w1 & Hx & Hrun).
    apply interpolate_Ok in Hx as (n & c & h & wd & Hsh & _ & Hx).
    apply bind_Ok in Hrun as (g & w2 & Hg & Hrun).
    apply logged_call_Ok in Hg.
    apply bind_Ok in Hrun as (x & w3 & Hc & Hrun).
    apply cat_Ok in Hc as (sh & _ & Hc).
    apply bind_Ok in Hrun as (y & w4 & Hy & Hrun).
    apply logged_call_Ok in Hy.
    apply ret_Ok in Hrun as [[= -> ->] ->].
    right. eexists. split; [done|]. by eapply branch_level_1. }
  destruct (level =? 2)%Z eqn:E2; [apply Z.eqb_eq in E2 as ->|].
  { apply bind_Ok in Hrun as (gtp & w0 & Hp & Hrun).
    apply liftR_Ok in Hp as [Hp ->].
    apply gt_permute_Ok in Hp as (gt & Hgt & Hp).
    apply bind_Ok in Hrun as (xg & w1 & Hx & Hrun).
    apply interpolate_Ok in Hx as (n & c & h & wd & Hsh & _ & Hx).
    apply bind_Ok in Hrun as (g & w2 & Hg & Hrun).
    apply logged_call_Ok in Hg.
    apply bind_Ok in Hrun as (gtp' & w0' & Hp' & Hrun).
    apply liftR_Ok in Hp' as [Hp' ->].
    apply gt_permute_Ok in Hp' as (gt' & Hgt' & Hp').
    rewrite Hgt in Hgt'. injection Hgt' as <-.
    rewrite Hp in Hp'. injection Hp' as <-.
    apply bind_Ok in Hrun as (l & w3 & Hl & Hrun).
    apply logged_call_Ok in Hl.
    apply bind_Ok in Hrun as (p2 & w4 & Hd & Hrun).
    apply DiagonalGaussianDistribution_Ok in Hd.
    apply bind_Ok in Hrun as (z2 & w5 & Hz & Hrun).
    apply logged_call_Ok in Hz.
    apply bind_Ok in Hrun as (x & w6 & Hc & Hrun).
    apply cat_Ok in Hc as (sh & _ & Hc).
    apply bind_Ok in Hrun as (y & w7 & Hy & Hrun).
    apply logged_call_Ok in Hy.
    apply ret_Ok in Hrun as [[= -> ->] ->].
    right. eexists. split; [done|]. by eapply branch_level_2. }
  apply ret_Ok in Hrun as [[= -> ->] ->]. by left.
Qed.

End Runs.

Section ForwardRuns.
Context `{Platform} `{!DistributionClass}.

Lemma getitem_tensor_Ok (d : gmap string Value) k t :
  getitem_tensor d k = Ok t → d !! k = Some (VTensor t).
Proof.
  unfold getitem_tensor. destruct (d !! k) as [[]|]; try discriminate.
  by intros [= ->].
Qed.

Lemma forward_Ok self rays_o rays_d light_positions bg_color gt_rgb
    multi_level_guidance kwargs w out w' :
  forward self rays_o rays_d light_positions bg_color gt_rgb
    multi_level_guidance kwargs w = (Ok out, w') →
  forward_run self rays_o rays_d light_positions bg_color gt_rgb
    multi_level_guidance kwargs w out w'.
Proof.
  unfold forward. intros Hrun.
  apply bind_Ok in Hrun as ([[[B Hh] Ww] C] & w0 & Hu & Hrun).
  apply liftR_Ok in Hu as [Hu ->].
  assert (shape rays_o = [B; Hh; Ww; C]) as Hshape.
  { unfold unpack_shape4 in Hu.
    destruct (shape rays_o) as [|? [|? [|? [|? [|? ?]]]]]; try discriminate.
    by injection Hu as -> -> -> ->. }
  apply bind_Ok in Hrun as (level & w1 & Hlevel & Hrun).
  apply bind_Ok in Hrun as (ro & w2 & Hro & Hrun).
  apply bind_Ok in Hrun as (rd & w3 & Hrd & Hrun).
  apply bind_Ok in Hrun as (out0 & w4 & Hbase & Hrun).
  apply logged_call_Ok in Hbase.
  apply bind_Ok in Hrun as (comp & w4' & Hcomp & Hrun).
  apply liftR_Ok in Hcomp as [Hcomp ->].
  apply res_bind_Ok in Hcomp as (c & Hc & Hcomp).
  apply getitem_tensor_Ok in Hc. rewrite lookup_insert_ne in Hc by done.
  apply bind_Ok in Hrun as (latent & w4' & Hlatent & Hrun).
  apply liftR_Ok in Hlatent as [Hlatent ->].
  apply res_bind_Ok in Hlatent as (c' & Hc' & Hlatent).
  apply getitem_tensor_Ok in Hc'. rewrite lookup_insert_ne in Hc' by done.
  rewrite Hc in Hc'. injection Hc' as <-.
  apply bind_Ok in Hrun as (lr & w5 & Hlr & Hrun).
  apply clone_Ok in Hlr.
  apply bind_Ok in Hrun as (lpm & w5' & Hlpm & Hrun).
  apply liftR_Ok in Hlpm as [Hlpm ->].
  apply bind_Ok in Hrun as (p1 & w6 & Hp1 & Hrun).
  apply DiagonalGaussianDistribution_Ok in Hp1.
  apply bind_Ok in Hrun as (z1 & w7 & Hz1 & Hrun).
  apply logged_call_Ok in Hz1.
  apply bind_Ok in Hrun as (lr_rgb & w7' & Hlr_rgb & Hrun).
  apply liftR_Ok in Hlr_rgb as [Hlr_rgb ->].
  apply res_bind_Ok in Hlr_rgb as (lr_rgb' & Hlr_rgb & [= <-]).
  apply bind_Ok in Hrun as ([p o] & w8 & Hbranch & Hrun).
  apply bind_Ok in Hrun as (cp & w8' & Hcp & Hrun).
  apply liftR_Ok in Hcp as [Hcp ->].
  rewrite Hlr_rgb in Hcp. injection Hcp as <-.
  apply bind_Ok in Hrun as (up & w9 & Hup & Hrun).
  apply interpolate_Ok in Hup as (n & ch & h & wd & Hsh & _ & Hup).
  apply bind_Ok in Hrun as (gan & w9' & Hgan & Hrun).
  apply liftR_Ok in Hgan as [Hgan ->].
  apply bind_Ok in Hrun as (upp & w9' & Hupp & Hrun).
  apply liftR_Ok in Hupp as [Hupp ->].
  apply ret_Ok in Hrun as [-> ->].
  apply guidance_branch_Ok in Hbranch as [-> | (y & -> & Hbranch)];
    [discriminate|].
  by eapply ForwardRun.
Qed.

End ForwardRuns.

(** ** Tactics for runs *)

Ltac simpl_world := cbn [st training next_id trace heap rng ext] in *.

(** Open every step of a run: each world becomes an explicit record. A
    world is substituted as soon as it is known and the projections are
    reduced at once, which keeps the terms linear in the length of the run. *)
Ltac open_steps :=
  repeat match goal with
  | Hs : downsample_rays _ _ _ _ = (Ok _, _) |- _ =>
      apply downsample_rays_Ok in Hs as (? & ? & ? & ? & ? & ? & ? & ? & ? & ? & ->)
  | Hs : allocated _ _ _ _ _ |- _ =>
      destruct Hs as (? & -> & ->); simpl_world
  | Hs : called _ _ _ _ _ |- _ =>
      destruct Hs as (? & ? & ->); simpl_world
  | Hs : dist_built _ _ _ _ |- _ =>
      destruct Hs as (? & ? & ? & -> & ->); simpl_world
  end.

(** Turn a returning call of [forward] into its run, with the level choice
    and the branch taken made explicit. Leaves one goal per branch. *)
Ltac exec Hrun :=
  apply forward_Ok in Hrun; destruct Hrun;
  match goal with
  | Hc : choose_generator_level _ _ _ = (Ok _, _) |- _ =>
      let Hc' := fresh "Hlevel" in
      pose proof Hc as Hc';
      apply choose_level_Ok in Hc as (? & ? & -> & ?); simpl_world
  end;
  match goal with
  | Hb : branch_run _ _ _ _ _ _ _ _ _ _ |- _ => inversion Hb; clear Hb; subst
  end;
  open_steps.

(** The new events of an explicit final world, as one list. The list is
    computed in a hypothesis of its own, away from the goal. *)
Ltac events :=
  match goal with
  | |- context [new_events ?w ?w'] =>
      let ne := fresh "ne" in
      let Hne := fresh "Hne" in
      remember (new_events w w') as ne eqn:Hne;
      unfold new_events in Hne; cbn [trace] in Hne;
      rewrite <- ?app_assoc in Hne; rewrite drop_app_length in Hne;
      cbn [app] in Hne; subst ne
  end.

Lemma app_cons_cons {A} (l : list A) a b k :
  l ++ a :: b :: k = (l ++ [a; b]) ++ k.
Proof. by rewrite <- app_assoc. Qed.

(** The same, with the events before the base renderer's call set apart. *)
Ltac events_from_base :=
  match goal with
  | |- context [new_events ?w ?w'] =>
      let ne := fresh "ne" in
      let Hne := fresh "Hne" in
      remember (new_events w w') as ne eqn:Hne;
      unfold new_events in Hne; cbn [trace] in Hne;
      rewrite <- ?app_assoc in Hne; rewrite drop_app_length in Hne;
      cbn [app] in Hne; rewrite app_cons_cons in Hne; subst ne
  end.

(** Shapes through views. *)
Ltac open_permutes :=
  repeat match goal with
  | H1 : permute ?t [0; 3; 1; 2] = Ok ?r |- _ =>
      is_var r;
      destruct (permute_0312_Ok _ _ H1) as (? & ? & ? & ? & ? & ->)
  | H1 : permute ?t [0; 2; 3; 1] = Ok ?r |- _ =>
      is_var r;
      destruct (permute_0231_Ok _ _ H1) as (? & ? & ? & ? & ? & ->)
  end.

Ltac open_slices :=
  repeat match goal with
  | H1 : slice_last ?t _ _ = Ok ?r, H2 : shape ?t = [_; _; _; _] |- _ =>
      lazymatch goal with
      | _ : shape r = _ |- _ => fail
      | _ => idtac
      end;
      destruct (slice_last_shape4 _ _ _ _ _ _ _ _ H1 H2) as [? _]
  end.

Ltac same_shape :=
  cbn [shape] in *;
  repeat match goal with
  | H1 : shape ?t = _, H2 : shape ?t = _ |- _ =>
      rewrite H1 in H2; simplify_eq
  end.

(** Was the level drawn or forced? *)
Ltac level_cases :=
  match goal with
  | Hcase : _ ∨ _ |- _ =>
      destruct Hcase as [(_ & _ & _ & ->) | (_ & _ & _ & ->)]
  end.

(** Membership in an explicit list of events. *)
Ltac in_events :=
  repeat first [apply list_elem_of_here | apply list_elem_of_further].

Section Claims.
Context `{Platform} `{!DistributionClass}.
Implicit Types (self : GANVolumeRenderer) (w : World).

(** C1. When [gt_rgb] is None the level choice returns 0 without touching
    the world, whatever [multi_level_guidance] is, and every call of
    [forward] that returns has [generator_level] equal to 0 in its output. *)
Theorem C1_absent_ground_truth_level_0 self rays_o rays_d light_positions
    bg_color multi_level_guidance kwargs w :
  choose_generator_level None multi_level_guidance w = (Ok 0%Z, w) ∧
  ∀ out w',
    forward self rays_o rays_d light_positions bg_color None
      multi_level_guidance kwargs w = (Ok out, w') →
    out !! "generator_level" = Some (VInt 0).
Proof.
  split; [apply choose_level_forced; auto|].
  intros out w' Hrun. apply forward_Ok in Hrun. destruct Hrun.
  match goal with Hc : choose_generator_level _ _ _ = _ |- _ =>
    rewrite choose_level_forced in Hc by auto; injection Hc as <- <- end.
  subst out. apply lookup_insert_eq.
Qed.

(** C2. In a call that returns, the generator is called once, on the
    concatenation of the detached low-res RGB and a latent map. At levels 0
    and 1 that map is the sample of the distribution built from the base
    renderer's latent channels. At level 2 it is the sample of a second
    distribution object, built from the local encoder's output on the
    permuted ground truth. *)
Theorem C2_latent_reaching_generator self rays_o rays_d light_positions
    bg_color gt_rgb multi_level_guidance kwargs w out w' :
  forward self rays_o rays_d light_positions bg_color gt_rgb
    multi_level_guidance kwargs w = (Ok out, w') →
  ∃ level pre ro rd out0 c comp lr latent lpm lr_rgb p1 z1 up Hh Ww,
    out !! "generator_level" = Some (VInt level) ∧
    out0 !! "comp_rgb" = Some (VTensor c) ∧
    slice_last c 0 (Some 3) = Ok comp ∧
    permute comp [0; 3; 1; 2] = Ok lr_rgb ∧
    slice_last c 3 None = Ok latent ∧
    permute latent [0; 3; 1; 2] = Ok lpm ∧
    ((level = 0%Z ∧ ∃ xg g x y,
        new_events w w' = pre ++
          [EBaseRenderer ro rd light_positions bg_color kwargs out0;
           EClone comp lr; EDistInit lpm p1; EDistSample p1 z1;
           EInterpolate lr_rgb (224, 224) Nearest xg; EGlobalEncoder xg g;
           ECat [lr_rgb; z1] 1 x; EGenerator x g y;
           EInterpolate lr_rgb (Hh, Ww) Bilinear up]) ∨
     (level = 1%Z ∧ ∃ gt gtp xg g x y,
        gt_rgb = Some gt ∧ permute gt [0; 3; 1; 2] = Ok gtp ∧
        new_events w w' = pre ++
          [EBaseRenderer ro rd light_positions bg_color kwargs out0;
           EClone comp lr; EDistInit lpm p1; EDistSample p1 z1;
           EInterpolate gtp (224, 224) Nearest xg; EGlobalEncoder xg g;
           ECat [lr_rgb; z1] 1 x; EGenerator x g y;
           EInterpolate lr_rgb (Hh, Ww) Bilinear up]) ∨
     (level = 2%Z ∧ ∃ gt gtp xg g l p2 z2 x y,
        gt_rgb = Some gt ∧ permute gt [0; 3; 1; 2] = Ok gtp ∧
        dist_id p2 ≠ dist_id p1 ∧
        new_events w w' = pre ++
          [EBaseRenderer ro rd light_positions bg_color kwargs out0;
           EClone comp lr; EDistInit lpm p1; EDistSample p1 z1;
           EInterpolate gtp (224, 224) Nearest xg; EGlobalEncoder xg g;
           ELocalEncoder gtp l; EDistInit l p2; EDistSample p2 z2;
           ECat [lr_rgb; z2] 1 x; EGenerator x g y;
           EInterpolate lr_rgb (Hh, Ww) Bilinear up])) ∧
    filter is_generator_call pre = [].
Proof.
  intros Hrun. exec Hrun.
  all: events_from_base.
  all: level_cases.
  all: eexists _, _, _, _, out0, c, comp, _, latent, lpm, lr_rgb, _, _, _, _, _.
  all: split; [apply lookup_insert_eq|].
  all: do 5 (split; [done|]).
  all: split; [first
    [ left; split; [done|]; eexists _, _, _, _; reflexivity
    | right; left; split; [done|];
      eexists _, _, _, _, _, _; split; [done|]; split; [done|]; reflexivity
    | right; right; split; [done|];
      eexists _, _, _, _, _, _, _, _, _; split; [done|]; split; [done|];
      (split; [|reflexivity]); simpl; lia ]
    | reflexivity ].
Qed.

(** The dictionary after the six writes of [forward]. *)
Lemma written_record (out0 : gmap string Value) vgt vlr vp vgan vup vlevel :
  let out := <["generator_level" := vlevel]>
               (<["comp_rgb" := vup]>
                 (<["comp_gan_rgb" := vgan]>
                   (<["posterior" := vp]>
                     (<["comp_lr_rgb" := vlr]>
                       (<["comp_gt_rgb" := vgt]> out0))))) in
  (∀ k v, out0 !! k = Some v →
     is_Some (out !! k) ∧ (k ∉ orchestrator_keys → out !! k = Some v)) ∧
  (∀ k, is_Some (out !! k) → is_Some (out0 !! k) ∨ k ∈ orchestrator_keys) ∧
  out !! "comp_lr_rgb" = Some vlr ∧
  out !! "comp_gan_rgb" = Some vgan ∧
  out !! "comp_gt_rgb" = Some vgt ∧
  out !! "posterior" = Some vp ∧
  out !! "generator_level" = Some vlevel ∧
  out !! "comp_rgb" = Some vup.
Proof.
  intros out. subst out. split; [|split].
  - intros k v Hk. split.
    + rewrite !lookup_insert. repeat case_decide; eauto.
    + unfold orchestrator_keys. rewrite !not_elem_of_cons.
      intros (?&?&?&?&?&?&_). by rewrite !lookup_insert_ne by done.
  - intros k. unfold orchestrator_keys.
    rewrite !lookup_insert, !elem_of_cons. repeat case_decide; subst; auto 10.
  - by rewrite !lookup_insert; repeat (case_decide; [|done]).
Qed.


(** C6. The composite tensor of the base renderer is split on its last
    axis at 3: [comp_lr_rgb] is a clone of channels [0:3], and the first
    distribution object is built from channels [3:] (permuted to channels
    first). That object is sampled exactly once in the call, and no mode is
    ever taken. *)
Theorem C6_split_and_single_sample self rays_o rays_d light_positions
    bg_color gt_rgb multi_level_guidance kwargs w out w' :
  forward self rays_o rays_d light_positions bg_color gt_rgb
    multi_level_guidance kwargs w = (Ok out, w') →
  ∃ out0 c comp latent lr lpm p1 z1,
    base_outputs (new_events w w') = [out0] ∧
    out0 !! "comp_rgb" = Some (VTensor c) ∧
    slice_last c 0 (Some 3) = Ok comp ∧
    slice_last c 3 None = Ok latent ∧
    (∀ b h wd C, shape c = [b; h; wd; C] →
       shape comp = [b; h; wd; 3 `min` C] ∧ shape latent = [b; h; wd; C - 3]) ∧
    EClone comp lr ∈ new_events w w' ∧
    out !! "comp_lr_rgb" = Some (VTensor lr) ∧
    permute latent [0; 3; 1; 2] = Ok lpm ∧
    EDistInit lpm p1 ∈ new_events w w' ∧
    EDistSample p1 z1 ∈ new_events w w' ∧
    samples_of p1 (new_events w w') = [z1] ∧
    filter is_mode (new_events w w') = [].
Proof.
  intros Hrun. exec Hrun.
  all: events.
  all: level_cases; cbn [app].
  all: eexists out0, c, comp, latent, _, lpm, _, _.
  all: split; [reflexivity|].
  all: do 3 (split; [done|]).
  all: split;
    [intros b' h' wd' C' Hc;
     match goal with
     | H1 : slice_last _ 0 (Some 3) = _, H2 : slice_last _ 3 None = _ |- _ =>
         destruct (slice_last_shape4 _ _ _ _ _ _ _ _ H1 Hc) as [-> _];
         destruct (slice_last_shape4 _ _ _ _ _ _ _ _ H2 Hc) as [-> _]
     end; cbn [default from_option id]; split; do 4 f_equal; lia|].
  all: split; [in_events|].
  all: split; [by rewrite lookup_insert_ne, lookup_insert_ne, lookup_insert_ne,
                 lookup_insert_ne, lookup_insert_eq by done|].
  all: split; [done|].
  all: split; [in_events|].
  all: split; [in_events|].
  all: split; [|reflexivity].
  all: unfold samples_of; cbn -[Nat.div Nat.eqb].
  all: rewrite ?Nat.eqb_refl, ?(proj2 (Nat.eqb_neq (S _) _)) by lia.
  all: reflexivity.
Qed.

(** C10. The distribution stored under [posterior] depends on the level:
    at levels 0 and 1 it is the object built from the base renderer's
    latent channels; at level 2 it is a second object, built from the
    local encoder's output on the permuted ground truth, and the first
    object is not returned. *)
Theorem C10_posterior_by_level self rays_o rays_d light_positions
    bg_color gt_rgb multi_level_guidance kwargs w out w' :
  forward self rays_o rays_d light_positions bg_color gt_rgb
    multi_level_guidance kwargs w = (Ok out, w') →
  ∃ level out0 c latent lpm p1 p,
    out !! "generator_level" = Some (VInt level) ∧
    out !! "posterior" = Some (VDist p) ∧
    base_outputs (new_events w w') = [out0] ∧
    out0 !! "comp_rgb" = Some (VTensor c) ∧
    slice_last c 3 None = Ok latent ∧
    permute latent [0; 3; 1; 2] = Ok lpm ∧
    EDistInit lpm p1 ∈ new_events w w' ∧
    (((level = 0%Z ∨ level = 1%Z) ∧ p = p1) ∨
     (level = 2%Z ∧ dist_id p ≠ dist_id p1 ∧
      ∃ gt gtp l, gt_rgb = Some gt ∧ permute gt [0; 3; 1; 2] = Ok gtp ∧
        ELocalEncoder gtp l ∈ new_events w w' ∧
        EDistInit l p ∈ new_events w w')).
Proof.
  intros Hrun. exec Hrun.
  all: events.
  all: level_cases; cbn [app].
  all: eexists _, out0, c, latent, lpm, _, _.
  all: split; [apply lookup_insert_eq|].
  all: split; [by rewrite lookup_insert_ne, lookup_insert_ne, lookup_insert_ne,
                 lookup_insert_eq by done|].
  all: split; [reflexivity|].
  all: do 3 (split; [done|]).
  all: split; [in_events|].
  1-4: left; split; [auto|reflexivity].
  all: right; split; [done|]; split; [simpl; lia|].
  all: eexists _, _, _; split; [done|]; split; [done|].
  all: split; in_events.
Qed.

(** C7. With rays of shape (B, H, W, 3) and a base renderer whose composite
    tensor has batch B and at least three channels, the [comp_rgb] of the
    output is the bilinear upsampling to (H, W) of channels [0:3] of the
    composite tensor, a new tensor of shape exactly (B, H, W, 3). *)
Theorem C7_upsampled_shape self rays_o rays_d light_positions
    bg_color gt_rgb multi_level_guidance kwargs B Hh Ww w out w' :
  shape rays_o = [B; Hh; Ww; 3] →
  forward self rays_o rays_d light_positions bg_color gt_rgb
    multi_level_guidance kwargs w = (Ok out, w') →
  forallb (composite_ok B) (base_outputs (new_events w w')) = true →
  ∃ out0 c comp lr_rgb up upp,
    base_outputs (new_events w w') = [out0] ∧
    out0 !! "comp_rgb" = Some (VTensor c) ∧
    slice_last c 0 (Some 3) = Ok comp ∧
    permute comp [0; 3; 1; 2] = Ok lr_rgb ∧
    EInterpolate lr_rgb (Hh, Ww) Bilinear up ∈ new_events w w' ∧
    permute up [0; 2; 3; 1] = Ok upp ∧
    out !! "comp_rgb" = Some (VTensor upp) ∧
    shape upp = [B; Hh; Ww; 3].
Proof.
  intros Hshape Hrun Hok. exec Hrun.
  all: revert Hok; events; level_cases; cbn [app]; intros Hok.
  all: cbn [base_outputs omap list_omap forallb] in Hok.
  all: rewrite andb_true_r in Hok; unfold composite_ok in Hok.
  all: match goal with Hc : _ !! "comp_rgb" = Some (VTensor ?c) |- _ =>
         rewrite Hc in Hok;
         destruct (shape c) as [|b [|h' [|wd' [|C' [|? ?]]]]] eqn:Hsc;
           try discriminate
       end.
  all: apply andb_true_iff in Hok as [->%Nat.eqb_eq HC%Nat.leb_le].
  all: open_slices; open_permutes; same_shape.
  all: eexists _, _, _, _, _, _.
  all: split; [reflexivity|].
  all: do 3 (split; [eassumption|]).
  all: split; [in_events|].
  all: split; [eassumption|].
  all: split; [by rewrite lookup_insert_ne, lookup_insert_eq by done|].
  all: cbn [shape default from_option id]; do 4 f_equal; lia.
Qed.

(** The ray downsampler on a well-formed input, computed. *)
Lemma downsample_rays_run rays b h wd ch Hh Ww w d0 :
  shape rays = [b; h; wd; ch] →
  0 < ch → 0 < h → 0 < wd → 4 ≤ Hh → 4 ≤ Ww →
  contents rays (heap (st w)) = Some d0 →
  downsample_rays rays Hh Ww w =
    (Ok (mkTensor (length (heap (st w))) [b; Hh / 4; Ww / 4; ch]
           [VPermute [0; 2; 3; 1]]),
     mkWorld
       (mkState
          (heap (st w) ++
           [interp_data Bilinear (Hh / 4, Ww / 4)
              (view_data (VPermute [0; 3; 1; 2]) d0)])
          (rng (st w)) (ext (st w)))
       (training w) (next_id w)
       (trace w ++
        [EInterpolate
           (mkTensor (storage rays) [b; ch; h; wd]
              (views rays ++ [VPermute [0; 3; 1; 2]]))
           (Hh / 4, Ww / 4) Bilinear
           (mkTensor (length (heap (st w))) [b; ch; Hh / 4; Ww / 4] [])])).
Proof.
  intros Hsh Hch Hh' Hwd HH HW Hd0.
  assert (0 < Hh / 4 ∧ 0 < Ww / 4) as [HH4 HW4].
  { split; apply Nat.div_str_pos; lia. }
  unfold downsample_rays, permute. rewrite Hsh.
  unfold mbind at 1, M_bind at 1. cbn [liftR is_permutation length].
  cbn -[Nat.div interpolate].
  unfold mbind at 1, M_bind at 1.
  unfold interpolate. cbn [shape].
  rewrite bool_decide_true by (cbn [fst snd]; lia).
  unfold mbind, M_bind, read, contents. cbn [storage views].
  unfold contents in Hd0.
  destruct (heap (st w) !! storage rays) as [d|] eqn:Hl; [|discriminate].
  cbn [fmap option_fmap option_map] in *. injection Hd0 as <-.
  rewrite foldl_app. reflexivity.
Qed.

Lemma downsample_rays_small rays Hh Ww w :
  Hh < 4 ∨ Ww < 4 →
  (downsample_rays rays Hh Ww w).1 = Raise RuntimeError.
Proof.
  intros Hsmall. unfold downsample_rays, permute.
  unfold mbind at 1, M_bind at 1. cbn [liftR].
  destruct (is_permutation _ _) eqn:Hp; [|reflexivity].
  unfold mbind at 1, M_bind at 1. unfold interpolate. cbn [shape].
  destruct (shape rays) as [|a [|b [|c [|d [|? ?]]]]]; try discriminate.
  cbn [fmap list_fmap nth]. rewrite bool_decide_false; [reflexivity|].
  cbn [fst snd]. intros (_ & _ & _ & H1 & H2).
  destruct Hsmall; [rewrite Nat.div_small in H1 | rewrite Nat.div_small in H2]; lia.
Qed.

Lemma contents_app t (h k : list Data) :
  storage t < length h → contents t (h ++ k) = contents t h.
Proof. intros Hlt. unfold contents. by rewrite lookup_app_l. Qed.

(** C5, amended. For H and W at least 4, divisible by 4 or not, the ray
    downsampler returns: the result has spatial size (H / 4, W / 4) with
    the floor division, it shows the bilinear interpolation of the permuted
    input, and every buffer that existed before reads as before. For H or W
    below 4 the target size is 0 and [interpolate] raises RuntimeError. In a
    call of [forward] that returns, H and W are at least 4 and the base
    renderer is called once, on the two downsampled ray tensors, in a store
    where the caller's tensors read as before. *)
Theorem C5_rays_downsampled self rays_o rays_d light_positions bg_color
    gt_rgb multi_level_guidance kwargs B Hh Ww C w :
  shape rays_o = [B; Hh; Ww; C] →
  (∀ rays b h wd ch w0 d0,
     shape rays = [b; h; wd; ch] → 0 < ch → 0 < h → 0 < wd →
     contents rays (heap (st w0)) = Some d0 →
     4 ≤ Hh → 4 ≤ Ww →
     ∃ r w1,
       downsample_rays rays Hh Ww w0 = (Ok r, w1) ∧
       shape r = [b; Hh / 4; Ww / 4; ch] ∧
       contents r (heap (st w1)) =
         Some (view_data (VPermute [0; 2; 3; 1])
                 (interp_data Bilinear (Hh / 4, Ww / 4)
                    (view_data (VPermute [0; 3; 1; 2]) d0))) ∧
       (∀ t, storage t < length (heap (st w0)) →
          contents t (heap (st w1)) = contents t (heap (st w0))) ∧
       rng (st w1) = rng (st w0) ∧ ext (st w1) = ext (st w0)) ∧
  (∀ rays w0, Hh < 4 ∨ Ww < 4 →
     (downsample_rays rays Hh Ww w0).1 = Raise RuntimeError) ∧
  (∀ out w',
     forward self rays_o rays_d light_positions bg_color gt_rgb
       multi_level_guidance kwargs w = (Ok out, w') →
     4 ≤ Hh ∧ 4 ≤ Ww ∧
     ∃ po io ro pd id rd s out0 s' b' h' wd' c',
       permute rays_o [0; 3; 1; 2] = Ok po ∧
       EInterpolate po (Hh / 4, Ww / 4) Bilinear io ∈ new_events w w' ∧
       permute io [0; 2; 3; 1] = Ok ro ∧
       permute rays_d [0; 3; 1; 2] = Ok pd ∧
       EInterpolate pd (Hh / 4, Ww / 4) Bilinear id ∈ new_events w w' ∧
       permute id [0; 2; 3; 1] = Ok rd ∧
       base_calls (new_events w w') = [(ro, rd)] ∧
       vr_forward (base_renderer self) ro rd light_positions bg_color kwargs s =
         (Ok out0, s') ∧
       shape ro = [B; Hh / 4; Ww / 4; C] ∧
       shape rays_d = [b'; h'; wd'; c'] ∧
       shape rd = [b'; Hh / 4; Ww / 4; c'] ∧
       ∀ t, storage t < length (heap (st w)) →
         contents t (heap s) = contents t (heap (st w))).
Proof.
  intros Hshape. split; [|split].
  - intros rays b h wd ch w0 d0 Hsh Hch Hh' Hwd Hd0 HH HW.
    eexists _, _. split; [by eapply downsample_rays_run|].
    split; [reflexivity|]. cbn [st heap rng ext].
    split; [|split; [|done]].
    + unfold contents. cbn [storage views].
      by rewrite lookup_app_r, Nat.sub_diag by done.
    + intros t Hlt. by apply contents_app.
  - intros rays w0. apply downsample_rays_small.
  - intros out w' Hrun. exec Hrun.
    all: events; level_cases; cbn [app].
    all: same_shape.
    all: repeat match goal with Hp : _ ∧ _ |- _ => destruct Hp end.
    all: split; [done|]; split; [done|].
    all: eexists _, _, _, _, _, _, _, _, _, _, _, _, _.
    all: split; [eassumption|].
    all: split; [in_events|].
    all: split; [reflexivity|].
    all: split; [eassumption|].
    all: split; [in_events|].
    all: split; [reflexivity|].
    all: split; [reflexivity|].
    all: split; [eassumption|].
    all: split; [reflexivity|].
    all: split; [eassumption|].
    all: split; [reflexivity|].
    all: intros t Hlt; cbn [heap]; rewrite <- app_assoc; by apply contents_app.
Qed.

Lemma contents_mutate_other t t' d (h : list Data) :
  storage t ≠ storage t' → contents t' (mutate t d h) = contents t' h.
Proof.
  intros Hne. unfold contents, mutate. by rewrite list_lookup_insert_ne.
Qed.

Lemma separate_buffers lr gan (h : list Data) :
  storage lr ≠ storage gan →
  storage lr ≠ storage gan ∧
  ∀ d, contents gan (mutate lr d h) = contents gan h ∧
       contents lr (mutate gan d h) = contents lr h.
Proof.
  intros Hne. split; [done|]. intros d.
  split; apply contents_mutate_other; congruence.
Qed.

(** C8. When the collaborators free no buffer and the encoders and the
    generator return a tensor on one of their arguments' buffers or on a
    new one, the tensors under [comp_lr_rgb] and [comp_gan_rgb] read
    different buffers: writing through one leaves what the other shows
    unchanged. *)
Theorem C8_low_res_and_refined_do_not_alias self rays_o rays_d
    light_positions bg_color gt_rgb multi_level_guidance kwargs w out w' :
  (∀ x, keeps_buffers (dist_init x)) →
  (∀ p, keeps_buffers (dist_sample p)) →
  (∀ x, keeps_buffers (local_encoder self x)) →
  (∀ x, returns_argument_or_new [x] (global_encoder self x)) →
  (∀ x g, returns_argument_or_new [x; g] (generator self x g)) →
  forward self rays_o rays_d light_positions bg_color gt_rgb
    multi_level_guidance kwargs w = (Ok out, w') →
  ∃ lr gan,
    out !! "comp_lr_rgb" = Some (VTensor lr) ∧
    out !! "comp_gan_rgb" = Some (VTensor gan) ∧
    storage lr ≠ storage gan ∧
    ∀ d,
      contents gan (mutate lr d (heap (st w'))) = contents gan (heap (st w')) ∧
      contents lr (mutate gan d (heap (st w'))) = contents lr (heap (st w')).
Proof.
  intros Hinit Hsample Hlocal Hglobal Hgen Hrun. exec Hrun.
  all: eexists _, _.
  all: split; [by rewrite lookup_insert_ne, lookup_insert_ne, lookup_insert_ne,
                 lookup_insert_ne, lookup_insert_eq by done|].
  all: split; [by rewrite lookup_insert_ne, lookup_insert_ne, lookup_insert_eq
                 by done|].
  all: apply separate_buffers.
  all: match goal with Hp : permute _ [0; 2; 3; 1] = Ok ?gan |- context [?gan] =>
         rewrite (permute_storage _ _ _ Hp) end.
  all: cbn [storage].
  all: repeat match goal with
       | Hc : dist_init _ _ = (Ok _, _) |- _ => apply Hinit in Hc
       | Hc : dist_sample _ _ = (Ok _, _) |- _ => apply Hsample in Hc
       | Hc : local_encoder _ _ _ = (Ok _, _) |- _ => apply Hlocal in Hc
       | Hc : global_encoder _ _ _ = (Ok _, _) |- _ =>
           apply Hglobal in Hc as [? Hc]
       | Hc : generator _ _ _ _ = (Ok _, _) |- _ =>
           apply Hgen in Hc as [? Hc]
       end.
  all: cbn [heap storage fmap list_fmap] in *.
  all: rewrite ?length_app in *; cbn [length] in *.
  all: repeat match goal with
       | Hc : _ ∈ _ :: _ ∨ _ |- _ => destruct Hc as [Hc | Hc]
       | Hc : _ ∈ _ :: _ |- _ => apply elem_of_cons in Hc as [Hc | Hc]
       | Hc : _ ∈ [] |- _ => by apply elem_of_nil in Hc
       end.
  all: lia.
Qed.

(** C9. [update_step], [train] and [eval] return what the base renderer's
    method returns on the same arguments, leave the shared state as that
    method leaves it, and touch nothing of the orchestrator's own. *)
Theorem C9_lifecycle_delegates self epoch global_step on_load_weights m w :
  ((update_step self epoch global_step on_load_weights w).1 =
     (vr_update_step (base_renderer self) epoch global_step on_load_weights
        (st w)).1 ∧
   st (update_step self epoch global_step on_load_weights w).2 =
     (vr_update_step (base_renderer self) epoch global_step on_load_weights
        (st w)).2 ∧
   training (update_step self epoch global_step on_load_weights w).2 = training w ∧
   next_id (update_step self epoch global_step on_load_weights w).2 = next_id w ∧
   trace (update_step self epoch global_step on_load_weights w).2 = trace w) ∧
  ((train self m w).1 = (vr_train (base_renderer self) m (st w)).1 ∧
   st (train self m w).2 = (vr_train (base_renderer self) m (st w)).2 ∧
   training (train self m w).2 = training w ∧
   next_id (train self m w).2 = next_id w ∧
   trace (train self m w).2 = trace w) ∧
  ((eval self w).1 = (vr_eval (base_renderer self) (st w)).1 ∧
   st (eval self w).2 = (vr_eval (base_renderer self) (st w)).2 ∧
   training (eval self w).2 = training w ∧
   next_id (eval self w).2 = next_id w ∧
   trace (eval self w).2 = trace w).
Proof.
  unfold update_step, train, eval, call.
  destruct (vr_update_step _ _ _ _ _) as [r1 s1].
  destruct (vr_train _ _ _) as [r2 s2].
  destruct (vr_eval _ _) as [r3 s3].
  repeat split.
Qed.

End Claims.

(** * The runs of the concrete renderer *)

Section DemoRuns.
Import Demo.

Lemma run_forced :
  forward self (rays_o 8) (rays_d 8) light_positions None None true ∅
    (world 1) = (Ok out_forced, world_forced).
Proof. reflexivity. Qed.

Lemma run_level2 :
  forward self (rays_o 8) (rays_d 8) light_positions None (Some (gt_rgb 8))
    true ∅ (world 2) = (Ok out_level2, world_level2).
Proof. reflexivity. Qed.

Lemma run_level2_composite :
  forallb (composite_ok 1)
    (base_outputs (new_events (world 2) world_level2)) = true.
Proof. vm_compute. reflexivity. Qed.

(** What the 8 x 8 run at level 2 returns. *)
Example level2_generator_level :
  out_level2 !! "generator_level" = Some (VInt 2).
Proof. vm_compute. reflexivity. Qed.

Example level2_comp_gan_rgb :
  out_level2 !! "comp_gan_rgb" =
    Some (VTensor (mkTensor 15 [1; 8; 8; 3] [VPermute [0; 2; 3; 1]])).
Proof. vm_compute. reflexivity. Qed.

Example level2_comp_lr_rgb :
  out_level2 !! "comp_lr_rgb" = Some (VTensor (mkTensor 8 [1; 2; 2; 3] [])).
Proof. vm_compute. reflexivity. Qed.

Example level2_opacity_kept :
  out_level2 !! "opacity" = Some (VTensor (mkTensor 7 [1; 2; 2; 1] [])).
Proof. vm_compute. reflexivity. Qed.

(** Without a ground truth the level is 0 although the flag is set. *)
Example forced_generator_level :
  out_forced !! "generator_level" = Some (VInt 0) ∧
  out_forced !! "comp_gt_rgb" = Some VNone.
Proof. split; vm_compute; reflexivity. Qed.

(** 5 x 5 rays are resized to 1 x 1; 3 x 3 rays are refused. *)
Example rays_5x5 :
  base_calls (trace (forward self (rays_o 5) (rays_d 5) light_positions None
                       None false ∅ (world 0)).2) =
    [(mkTensor 4 [1; 1; 1; 3] [VPermute [0; 2; 3; 1]],
      mkTensor 5 [1; 1; 1; 3] [VPermute [0; 2; 3; 1]])].
Proof. vm_compute. reflexivity. Qed.

Example rays_3x3 :
  (forward self (rays_o 3) (rays_d 3) light_positions None None false ∅
     (world 0)).1 = Raise RuntimeError.
Proof. vm_compute. reflexivity. Qed.

Lemma fresh_tensor_Ok f sh args s r s' :
  fresh_tensor f sh args s = (Ok r, s') →
  storage r = length (heap s) ∧ length (heap s') = S (length (heap s)).
Proof.
  unfold fresh_tensor. intros [= <- <-]. simpl.
  rewrite length_app. simpl. lia.
Qed.

Lemma demo_dist_init x : keeps_buffers (dist_init x).
Proof. intros s r s' [= <- <-]. done. Qed.

Lemma demo_dist_sample p : keeps_buffers (dist_sample p).
Proof.
  intros s r s'. cbn [dist_sample gaussian].
  destruct (shape p) as [|? [|? [|? [|? [|? ?]]]]]; try discriminate.
  intros [_ Hl]%fresh_tensor_Ok. lia.
Qed.

Lemma demo_local_encoder x : keeps_buffers (local_encoder self x).
Proof.
  intros s r s'. cbn [local_encoder self].
  destruct (shape x) as [|? [|? [|? [|? [|? ?]]]]]; try discriminate.
  intros [_ Hl]%fresh_tensor_Ok. lia.
Qed.

Lemma demo_global_encoder x : returns_argument_or_new [x] (global_encoder self x).
Proof.
  intros s r s'. cbn [global_encoder self].
  destruct (shape x) as [|? [|? [|? [|? [|? ?]]]]]; try discriminate.
  intros [Hr Hl]%fresh_tensor_Ok. split; [lia|right; lia].
Qed.

Lemma demo_generator x g : returns_argument_or_new [x; g] (generator self x g).
Proof.
  intros s r s'. cbn [generator self].
  destruct (shape x) as [|? [|? [|? [|? [|? ?]]]]]; try discriminate.
  intros [Hr Hl]%fresh_tensor_Ok. split; [lia|right; lia].
Qed.

(** ** The claims on these runs *)

Lemma C1_witness :
  forward self (rays_o 8) (rays_d 8) light_positions None None true ∅
    (world 1) = (Ok out_forced, world_forced) ∧
  out_forced !! "generator_level" = Some (VInt 0).
Proof.
  split; [exact run_forced|].
  exact (proj2 (C1_absent_ground_truth_level_0 self (rays_o 8) (rays_d 8)
                  light_positions None true ∅ (world 1))
           out_forced world_forced run_forced).
Defined.

Lemma C2_witness :
  forward self (rays_o 8) (rays_d 8) light_positions None (Some (gt_rgb 8))
    true ∅ (world 2) = (Ok out_level2, world_level2) ∧
  ∃ level, out_level2 !! "generator_level" = Some (VInt level).
Proof.
  split; [exact run_level2|].
  destruct (C2_latent_reaching_generator self (rays_o 8) (rays_d 8)
              light_positions None (Some (gt_rgb 8)) true ∅ (world 2)
              out_level2 world_level2 run_level2)
    as (level & pre & ro & rd & out0 & c & comp & lr & latent & lpm & lr_rgb &
        p1 & z1 & up & Hh & Ww & Hl & _).
  by exists level.
Defined.


Lemma C5_witness :
  shape (rays_o 5) = [1; 5; 5; 3] ∧
  ∃ r w1, downsample_rays (rays_o 5) 5 5 (world 0) = (Ok r, w1) ∧
          shape r = [1; 5 / 4; 5 / 4; 3].
Proof.
  split; [reflexivity|].
  destruct (C5_rays_downsampled self (rays_o 5) (rays_d 5) light_positions None
              None false ∅ 1 5 5 3 (world 0) eq_refl) as (Hstep & _ & _).
  destruct (Hstep (rays_o 5) 1 5 5 3 (world 0) (SInput "rays_o")
              eq_refl ltac:(lia) ltac:(lia) ltac:(lia) eq_refl
              ltac:(lia) ltac:(lia))
    as (r & w1 & Hrun & Hshape & _).
  by exists r, w1.
Defined.

Lemma C6_witness :
  forward self (rays_o 8) (rays_d 8) light_positions None (Some (gt_rgb 8))
    true ∅ (world 2) = (Ok out_level2, world_level2) ∧
  ∃ p1 z1, samples_of p1 (new_events (world 2) world_level2) = [z1].
Proof.
  split; [exact run_level2|].
  destruct (C6_split_and_single_sample self (rays_o 8) (rays_d 8)
              light_positions None (Some (gt_rgb 8)) true ∅ (world 2)
              out_level2 world_level2 run_level2)
    as (out0 & c & comp & latent & lr & lpm & p1 & z1 &
        _ & _ & _ & _ & _ & _ & _ & _ & _ & _ & Hs & _).
  by exists p1, z1.
Defined.

Lemma C7_witness :
  shape (rays_o 8) = [1; 8; 8; 3] ∧
  forward self (rays_o 8) (rays_d 8) light_positions None (Some (gt_rgb 8))
    true ∅ (world 2) = (Ok out_level2, world_level2) ∧
  forallb (composite_ok 1)
    (base_outputs (new_events (world 2) world_level2)) = true ∧
  ∃ upp, out_level2 !! "comp_rgb" = Some (VTensor upp) ∧
         shape upp = [1; 8; 8; 3].
Proof.
  split; [reflexivity|]. split; [exact run_level2|].
  split; [exact run_level2_composite|].
  destruct (C7_upsampled_shape self (rays_o 8) (rays_d 8) light_positions None
              (Some (gt_rgb 8)) true ∅ 1 8 8 (world 2) out_level2
              world_level2 eq_refl run_level2 run_level2_composite)
    as (out0 & c & comp & lr_rgb & up & upp & _ & _ & _ & _ & _ & _ & Hupp & Hs).
  by exists upp.
Defined.

Lemma C8_witness :
  forward self (rays_o 8) (rays_d 8) light_positions None (Some (gt_rgb 8))
    true ∅ (world 2) = (Ok out_level2, world_level2) ∧
  ∃ lr gan,
    out_level2 !! "comp_lr_rgb" = Some (VTensor lr) ∧
    out_level2 !! "comp_gan_rgb" = Some (VTensor gan) ∧
    storage lr ≠ storage gan.
Proof.
  split; [exact run_level2|].
  destruct (C8_low_res_and_refined_do_not_alias self (rays_o 8) (rays_d 8)
              light_positions None (Some (gt_rgb 8)) true ∅ (world 2)
              out_level2 world_level2
              demo_dist_init demo_dist_sample demo_local_encoder
              demo_global_encoder demo_generator run_level2)
    as (lr & gan & Hlr & Hgan & Hne & _).
  by exists lr, gan.
Defined.

Lemma C10_witness :
  forward self (rays_o 8) (rays_d 8) light_positions None (Some (gt_rgb 8))
    true ∅ (world 2) = (Ok out_level2, world_level2) ∧
  ∃ p, out_level2 !! "posterior" = Some (VDist p).
Proof.
  split; [exact run_level2|].
  destruct (C10_posterior_by_level self (rays_o 8) (rays_d 8)
              light_positions None (Some (gt_rgb 8)) true ∅ (world 2)
              out_level2 world_level2 run_level2)
    as (level & out0 & c & latent & lpm & p1 & p & _ & Hp & _).
  by exists p.
Defined.

(** For rays of spatial size 2 x 2 the target size of the resize is 0 x 0:
    2 is not divisible by 4, and the call raises. *)
Lemma C5_counterexample :
  shape (rays_o 2) = [1; 2; 2; 3] ∧ 2 `mod` 4 ≠ 0 ∧
  (downsample_rays (rays_o 2) 2 2 (world 0)).1 = Raise RuntimeError ∧
  (forward self (rays_o 2) (rays_d 2) light_positions None None false ∅
     (world 0)).1 = Raise RuntimeError.
Proof. repeat split; try reflexivity. discriminate. Qed.

End DemoRuns.

(** * Every outcome of a call

    Rules for [outcome], one per primitive and per block of [forward], for
    a relation [R] that allocation and the generator's draws respect and
    a set [E] that holds the exceptions of torch and of Python. *)

Section Outcomes.
Context `{Platform} `{!DistributionClass}.
Variable R : State → State → Prop.
Variable E : exn → Prop.
Hypothesis R_refl : ∀ s, R s s.
Hypothesis R_trans : ∀ s1 s2 s3, R s1 s2 → R s2 s3 → R s1 s3.
Hypothesis R_alloc : ∀ s d, R s (mkState (heap s ++ [d]) (rng s) (ext s)).
Hypothesis R_rng : ∀ s g, R s (mkState (heap s) g (ext s)).
Hypothesis E_value : E ValueError.
Hypothesis E_key : E KeyError.
Hypothesis E_type : E TypeError.
Hypothesis E_index : E IndexError.
Hypothesis E_runtime : E RuntimeError.
Hypothesis E_handle : E InvalidHandle.

Lemma outcome_ret {A} (Q : A → Prop) a : Q a → outcome R E Q (mret a).
Proof. intros Ha w r w' [= <- <-]. auto. Qed.

Lemma outcome_liftR {A} (Q : A → Prop) (r : Res A) :
  within E Q r → outcome R E Q (liftR r).
Proof. intros Hr w r' w' [= <- <-]. auto. Qed.

Lemma outcome_bind {A B} (Q : A → Prop) (Q' : B → Prop) (m : M A) (k : A → M B) :
  outcome R E Q m → (∀ a, Q a → outcome R E Q' (k a)) →
  outcome R E Q' (m ≫= k).
Proof.
  intros Hm Hk w r w' Hrun. unfold mbind, M_bind in Hrun.
  destruct (m w) as [[a|e] w1] eqn:Hmw.
  - destruct (Hm _ _ _ Hmw) as [HR Ha].
    destruct (Hk a Ha _ _ _ Hrun) as [HR' Hr]. eauto.
  - injection Hrun as <- <-. by apply (Hm _ _ _ Hmw).
Qed.

Lemma outcome_weaken {A} (Q Q' : A → Prop) m :
  outcome R E Q m → (∀ a, Q a → Q' a) → outcome R E Q' m.
Proof.
  intros Hm HQ w r w' Hrun. destruct (Hm _ _ _ Hrun) as [HR Hr].
  split; [done|]. destruct r; auto.
Qed.

Lemma outcome_call {A} (f : State → Res A * State) :
  respects R E f → outcome R E (λ _, True) (call f).
Proof.
  intros Hf w r w' Hrun. unfold call in Hrun.
  destruct (f (st w)) as [r0 s] eqn:Hfs. injection Hrun as <- <-.
  destruct (Hf _ _ _ Hfs) as [HR Hr]. split; [done|]. by destruct r0.
Qed.

Lemma outcome_log e : outcome R E (λ _, True) (log e).
Proof. intros w r w' [= <- <-]. auto. Qed.

Lemma outcome_fresh_id : outcome R E (λ _, True) fresh_id.
Proof. intros w r w' [= <- <-]. auto. Qed.

Lemma outcome_read t : outcome R E (λ _, True) (read t).
Proof.
  intros w r w' Hrun. unfold read in Hrun.
  destruct (contents t (heap (st w))); injection Hrun as <- <-; auto.
Qed.

Lemma outcome_alloc sh d : outcome R E (λ _, True) (alloc sh d).
Proof. intros w r w' [= <- <-]. split; [apply R_alloc|done]. Qed.

Lemma outcome_mapM_read ts : outcome R E (λ _, True) (mapM read ts).
Proof.
  induction ts as [|t ts IH]; simpl.
  - by apply outcome_ret.
  - eapply outcome_bind; [apply outcome_read|]. intros d _.
    eapply outcome_bind; [apply IH|]. intros ds _. by apply outcome_ret.
Qed.

(** Apply the rule of [bind] as long as it applies. *)
Ltac chain tac :=
  repeat (eapply outcome_bind; [solve [tac] | intros ? ?]);
  try solve [tac].

Ltac prim :=
  first
    [ apply outcome_read | apply outcome_alloc | apply outcome_log
    | apply outcome_fresh_id | apply outcome_mapM_read
    | by apply outcome_ret ].

Lemma outcome_interpolate input size m :
  outcome R E (λ _, True) (interpolate input size m).
Proof.
  unfold interpolate, raise.
  destruct (shape input) as [|n [|c [|h [|wd [|? ?]]]]];
    try (by apply outcome_liftR).
  case_bool_decide; [|by apply outcome_liftR].
  chain prim.
Qed.

Lemma outcome_clone t : outcome R E (λ _, True) (clone t).
Proof. unfold clone. chain prim. Qed.

Lemma cat_shape_fine ts dim : within E (λ _, True) (cat_shape ts dim).
Proof.
  unfold cat_shape. repeat case_match; simpl; auto.
Qed.

Lemma outcome_cat ts dim : outcome R E (λ _, True) (cat ts dim).
Proof.
  unfold cat.
  eapply outcome_bind; [apply outcome_liftR, cat_shape_fine|]. intros sh _.
  chain prim.
Qed.

Lemma outcome_randint lo hi size :
  (lo < hi)%Z →
  outcome R E (λ vs, length vs = foldr Nat.mul 1 size ∧
                     Forall (λ v, lo ≤ v < hi)%Z vs) (randint lo hi size).
Proof.
  intros Hlt. unfold randint. rewrite bool_decide_true by done.
  assert (∀ n g, length (draws lo hi n g).1 = n ∧
                 Forall (λ v, lo ≤ v < hi)%Z (draws lo hi n g).1) as Hdraws.
  { induction n as [|n IH]; intros g; simpl; [by split|].
    pose proof (rng_randint_range lo hi g Hlt) as Hv.
    destruct (rng_randint lo hi g) as [v g1]. specialize (IH g1).
    destruct (draws lo hi n g1) as [vs g2]. simpl in *.
    destruct IH as [-> IH]. split; [done|]. by constructor. }
  intros w r w' Hrun. unfold mbind, M_bind, call, log in Hrun.
  specialize (Hdraws (foldr Nat.mul 1 size) (rng (st w))).
  destruct (draws lo hi (foldr Nat.mul 1 size) (rng (st w))) as [vs g].
  injection Hrun as <- <-. simpl. split; [apply R_rng|done].
Qed.

Lemma permute_fine t dims : within E (λ _, True) (permute t dims).
Proof. unfold permute. case_match; simpl; auto. Qed.

Lemma slice_last_fine t a b : within E (λ _, True) (slice_last t a b).
Proof. unfold slice_last. case_match; simpl; auto. Qed.

Lemma getitem_slice_fine (d : gmap string Value) k a b :
  within E (λ _, True) (c ← getitem_tensor d k; slice_last c a b).
Proof.
  unfold getitem_tensor, mbind, Res_bind.
  repeat case_match; simplify_eq; simpl; auto; apply slice_last_fine.
Qed.

Lemma outcome_downsample_rays rays Hh Ww :
  outcome R E (λ _, True) (downsample_rays rays Hh Ww).
Proof.
  unfold downsample_rays.
  eapply outcome_bind; [apply outcome_liftR, permute_fine|]. intros p _.
  eapply outcome_bind; [apply outcome_interpolate|]. intros i _.
  apply outcome_liftR, permute_fine.
Qed.

(** The level is 0, 1 or 2, and it is not 0 only with a ground truth. *)
Lemma outcome_choose_generator_level gt_rgb multi_level_guidance :
  outcome R E
    (λ level, (level = 0 ∨ level = 1 ∨ level = 2)%Z ∧
              (level ≠ 0%Z → is_Some gt_rgb))
    (choose_generator_level gt_rgb multi_level_guidance).
Proof.
  unfold choose_generator_level.
  destruct (bool_decide (is_Some gt_rgb) && multi_level_guidance) eqn:Hc.
  - apply andb_true_iff in Hc as [Hgt%bool_decide_eq_true _].
    eapply outcome_bind; [by apply outcome_randint|].
    intros vs [Hlen Hrange]. apply outcome_liftR.
    destruct vs as [|v [|? ?]]; try discriminate.
    apply Forall_cons in Hrange as [Hv _]. simpl. split; [lia|done].
  - apply outcome_ret. split; [auto|done].
Qed.

Variable self : GANVolumeRenderer.
Hypothesis collab : collaborators (λ A, respects R E) self.

Lemma outcome_run_base_renderer ro rd lp bg kw :
  outcome R E (λ _, True) (run_base_renderer self ro rd lp bg kw).
Proof.
  unfold run_base_renderer.
  eapply outcome_bind; [apply outcome_call, collab|]. intros out _.
  chain prim.
Qed.

Lemma outcome_run_global_encoder x :
  outcome R E (λ _, True) (run_global_encoder self x).
Proof.
  unfold run_global_encoder.
  eapply outcome_bind; [apply outcome_call, collab|]. intros r _.
  chain prim.
Qed.

Lemma outcome_run_local_encoder x :
  outcome R E (λ _, True) (run_local_encoder self x).
Proof.
  unfold run_local_encoder.
  eapply outcome_bind; [apply outcome_call, collab|]. intros r _.
  chain prim.
Qed.

Lemma outcome_run_generator x g :
  outcome R E (λ _, True) (run_generator self x g).
Proof.
  unfold run_generator.
  eapply outcome_bind; [apply outcome_call, collab|]. intros r _.
  chain prim.
Qed.

Lemma outcome_DiagonalGaussianDistribution x :
  outcome R E (λ _, True) (DiagonalGaussianDistribution x).
Proof.
  unfold DiagonalGaussianDistribution.
  eapply outcome_bind; [apply outcome_call, collab|]. intros r _.
  chain prim.
Qed.

Lemma outcome_sample d : outcome R E (λ _, True) (sample d).
Proof.
  unfold sample.
  eapply outcome_bind; [apply outcome_call, collab|]. intros r _.
  chain prim.
Qed.

Lemma gt_permute_fine gt_rgb dims :
  is_Some gt_rgb → within E (λ _, True) (gt_permute gt_rgb dims).
Proof. intros [gt ->]. apply permute_fine. Qed.

Ltac step :=
  first
    [ apply outcome_interpolate | apply outcome_clone | apply outcome_cat
    | apply outcome_run_global_encoder | apply outcome_run_local_encoder
    | apply outcome_run_generator | apply outcome_run_base_renderer
    | apply outcome_DiagonalGaussianDistribution | apply outcome_sample
    | apply outcome_downsample_rays
    | apply outcome_liftR; first [apply permute_fine | apply getitem_slice_fine
                                 | by apply gt_permute_fine ] ].

(** After the branch [comp_gan_rgb] is bound. *)
Lemma outcome_guidance_branch level gt_rgb lr_rgb posterior z_map :
  (level = 0 ∨ level = 1 ∨ level = 2)%Z →
  (level ≠ 0%Z → is_Some gt_rgb) →
  outcome R E (λ po, is_Some po.2)
    (guidance_branch self level gt_rgb lr_rgb posterior z_map).
Proof.
  intros Hlevel Hgt. unfold guidance_branch.
  destruct Hlevel as [-> | [-> | ->]]; cbn [Z.eqb Pos.eqb].
  - chain step. by apply outcome_ret.
  - specialize (Hgt ltac:(done)). chain step. by apply outcome_ret.
  - specialize (Hgt ltac:(done)). chain step. by apply outcome_ret.
Qed.

Lemma outcome_forward rays_o rays_d light_positions bg_color gt_rgb
    multi_level_guidance kwargs :
  outcome R E (λ _, True)
    (forward self rays_o rays_d light_positions bg_color gt_rgb
       multi_level_guidance kwargs).
Proof.
  unfold forward.
  eapply outcome_bind with (Q := λ _, True).
  { apply outcome_liftR. unfold unpack_shape4. repeat case_match; simpl; auto. }
  intros [[[B Hh] Ww] C] _.
  eapply outcome_bind; [apply outcome_choose_generator_level|].
  intros level [Hlevel Hgt].
  do 3 (eapply outcome_bind; [step|]; intros ? _).
  eapply outcome_bind; [step|]. intros comp _.
  eapply outcome_bind; [step|]. intros latent _.
  eapply outcome_bind; [step|]. intros lr _.
  do 3 (eapply outcome_bind; [step|]; intros ? _).
  eapply outcome_bind with (Q := λ _, True).
  { apply outcome_liftR. unfold mbind, Res_bind.
    pose proof (permute_fine comp [0; 3; 1; 2]) as Hf.
    by destruct (permute comp [0; 3; 1; 2]). }
  intros lr_rgb _.
  eapply outcome_bind; [by apply outcome_guidance_branch|].
  intros [p o] [y Hy]. simpl in Hy. subst o.
  do 2 (eapply outcome_bind; [step|]; intros ? _).
  eapply outcome_bind; [step|]. intros gan _.
  eapply outcome_bind; [step|]. intros up _.
  by apply outcome_ret.
Qed.

End Outcomes.

(** * Properties of every call *)

Section Extras.
Context `{Platform} `{!DistributionClass}.
Implicit Types (self : GANVolumeRenderer) (w : World).

Lemma collaborators_mono (P Q : ∀ A, (State → Res A * State) → Prop) self :
  (∀ A f, P A f → Q A f) → collaborators P self → collaborators Q self.
Proof.
  intros HPQ (Hb & Hg & Hl & Hgen & Hi & Hs).
  repeat split; intros; apply HPQ; auto.
Qed.

Lemma respects_weaken {A} (R R' : State → State → Prop) (E E' : exn → Prop)
    (f : State → Res A * State) :
  (∀ s s', R s s' → R' s s') → (∀ e, E e → E' e) →
  respects R E f → respects R' E' f.
Proof.
  intros HR HE Hf s r s' Hrun. destruct (Hf _ _ _ Hrun) as [? Hr].
  split; [auto|]. destruct r; auto.
Qed.

Lemma extends_store_refl (s : State) : extends_store s s.
Proof. by unfold extends_store. Qed.

Lemma extends_store_trans (s1 s2 s3 : State) :
  extends_store s1 s2 → extends_store s2 s3 → extends_store s1 s3.
Proof. unfold extends_store. by etrans. Qed.

Lemma extends_store_alloc (s : State) d :
  extends_store s (mkState (heap s ++ [d]) (rng s) (ext s)).
Proof. unfold extends_store. simpl. by apply prefix_app_r. Qed.

Lemma extends_store_rng (s : State) g :
  extends_store s (mkState (heap s) g (ext s)).
Proof. by unfold extends_store. Qed.

Lemma extends_store_contents (s s' : State) t d :
  extends_store s s' →
  contents t (heap s) = Some d → contents t (heap s') = Some d.
Proof.
  intros [k Hk] Ht. rewrite Hk. rewrite contents_app; [done|].
  unfold contents in Ht. destruct (heap s !! storage t) eqn:Hl; [|done].
  by eapply lookup_lt_Some.
Qed.

(** X1. Whatever a call of [forward] does, return or raise, it only adds
    buffers to the store when its collaborators only add buffers: every
    tensor that could be read before the call reads the same after it. *)
Theorem X1_forward_only_extends_store self rays_o rays_d light_positions
    bg_color gt_rgb multi_level_guidance kwargs w r w' :
  collaborators (λ A, respects extends_store (λ _, True)) self →
  forward self rays_o rays_d light_positions bg_color gt_rgb
    multi_level_guidance kwargs w = (r, w') →
  extends_store (st w) (st w') ∧
  ∀ t d, contents t (heap (st w)) = Some d →
         contents t (heap (st w')) = Some d.
Proof.
  intros Hcollab Hrun.
  destruct (outcome_forward extends_store (λ _, True)
              extends_store_refl extends_store_trans extends_store_alloc
              extends_store_rng I I I I I I self Hcollab
              rays_o rays_d light_positions bg_color gt_rgb
              multi_level_guidance kwargs w r w' Hrun) as [Hext _].
  split; [done|]. intros t d. by apply extends_store_contents.
Qed.

(** X2. An exception that leaves [forward] is one of the six its own lines
    raise, or one a collaborator raised. In particular [forward] raises
    no AttributeError and no UnboundLocalError of its own: the ground
    truth is only dereferenced at a level that was drawn because it is
    there, and the level is always one of the three that bind
    [comp_gan_rgb]. *)
Theorem X2_forward_exception_provenance self rays_o rays_d light_positions
    bg_color gt_rgb multi_level_guidance kwargs (P : exn → Prop) w e w' :
  collaborators (λ A, respects (λ _ _, True) P) self →
  forward self rays_o rays_d light_positions bg_color gt_rgb
    multi_level_guidance kwargs w = (Raise e, w') →
  (e ∈ own_errors ∨ P e) ∧
  (e = AttributeError ∨ e = UnboundLocalError → P e).
Proof.
  intros Hcollab Hrun.
  assert (e ∈ own_errors ∨ P e) as He.
  { assert (collaborators
              (λ A, respects (λ _ _, True) (λ e, e ∈ own_errors ∨ P e)) self)
      as Hcollab'.
    { revert Hcollab. apply collaborators_mono. intros A f.
      apply respects_weaken; auto. }
    refine (proj2 (outcome_forward (λ _ _, True) (λ e, e ∈ own_errors ∨ P e)
              (λ _, I) (λ _ _ _ _ _, I) (λ _ _, I) (λ _ _, I)
              _ _ _ _ _ _ self Hcollab'
              rays_o rays_d light_positions bg_color gt_rgb
              multi_level_guidance kwargs w (Raise e) w' Hrun));
      left; unfold own_errors; in_events. }
  split; [done|].
  intros Hown. destruct He as [He|]; [|done].
  unfold own_errors in He.
  destruct Hown as [-> | ->];
    repeat (apply elem_of_cons in He as [He | He]; [discriminate|]);
    by apply elem_of_nil in He.
Qed.

(** The ray downsampler refuses small rays without touching the world. *)
Lemma downsample_rays_refused rays Hh Ww w :
  Hh < 4 ∨ Ww < 4 →
  downsample_rays rays Hh Ww w = (Raise RuntimeError, w).
Proof.
  intros Hsmall. unfold downsample_rays, permute.
  unfold mbind at 1, M_bind at 1. cbn [liftR].
  destruct (is_permutation _ _) eqn:Hp; [|reflexivity].
  unfold mbind at 1, M_bind at 1. unfold interpolate. cbn [shape].
  destruct (shape rays) as [|a [|b [|c [|d [|? ?]]]]]; try discriminate.
  cbn [fmap list_fmap nth]. rewrite bool_decide_false; [reflexivity|].
  cbn [fst snd]. intros (_ & _ & _ & H1 & H2).
  destruct Hsmall; [rewrite Nat.div_small in H1 | rewrite Nat.div_small in H2]; lia.
Qed.

(** The level choice always returns, and keeps the store. *)
Lemma choose_level_returns gt_rgb multi_level_guidance w :
  ∃ level w1,
    choose_generator_level gt_rgb multi_level_guidance w = (Ok level, w1) ∧
    heap (st w1) = heap (st w) ∧ ext (st w1) = ext (st w) ∧
    next_id w1 = next_id w ∧
    base_calls (new_events w w1) = [].
Proof.
  destruct gt_rgb as [gt|], multi_level_guidance;
    rewrite ?choose_level_drawn, ?choose_level_forced by auto;
    eexists _, _; (split; [reflexivity|]); repeat split;
    unfold new_events; cbn [trace];
    rewrite ?drop_app_length, ?drop_all; reflexivity.
Qed.

(** X3. Malformed rays never reach the base renderer. Rays that are not
    4-D are refused by the unpacking of line 65, before anything else:
    ValueError, and the world is as before, no draw made. Rays of height or
    width below 4 are refused by the first resize, after the level draw
    only: RuntimeError, the store is as before and no collaborator was
    called. *)
Theorem X3_malformed_rays_never_rendered self rays_o rays_d light_positions
    bg_color gt_rgb multi_level_guidance kwargs w :
  (length (shape rays_o) ≠ 4 →
     forward self rays_o rays_d light_positions bg_color gt_rgb
       multi_level_guidance kwargs w = (Raise ValueError, w)) ∧
  (∀ B Hh Ww C,
     shape rays_o = [B; Hh; Ww; C] → Hh < 4 ∨ Ww < 4 →
     ∃ w',
       forward self rays_o rays_d light_positions bg_color gt_rgb
         multi_level_guidance kwargs w = (Raise RuntimeError, w') ∧
       w' = (choose_generator_level gt_rgb multi_level_guidance w).2 ∧
       heap (st w') = heap (st w) ∧ ext (st w') = ext (st w) ∧
       base_calls (new_events w w') = []).
Proof.
  split.
  - intros Hrank. unfold forward, unpack_shape4.
    destruct (shape rays_o) as [|? [|? [|? [|? [|? ?]]]]]; try reflexivity.
    by destruct Hrank.
  - intros B Hh Ww C Hshape Hsmall.
    destruct (choose_level_returns gt_rgb multi_level_guidance w)
      as (level & w1 & Hlevel & Hheap & Hext & _ & Hcalls).
    exists w1. rewrite Hlevel. split; [|done].
    unfold forward, unpack_shape4. rewrite Hshape.
    unfold mbind at 1, M_bind at 1. cbn [liftR].
    unfold mbind at 1, M_bind at 1. rewrite Hlevel.
    unfold mbind at 1, M_bind at 1.
    by rewrite downsample_rays_refused.
Qed.

(** The base renderer's call, raising and returning. *)
Lemma run_base_renderer_raises self ro rd lp bg kw w e s :
  vr_forward (base_renderer self) ro rd lp bg kw (st w) = (Raise e, s) →
  run_base_renderer self ro rd lp bg kw w =
    (Raise e, mkWorld s (training w) (next_id w) (trace w)).
Proof.
  intros Hb. unfold run_base_renderer, mbind, M_bind, call. by rewrite Hb.
Qed.

Lemma run_base_renderer_returns self ro rd lp bg kw w out0 s :
  vr_forward (base_renderer self) ro rd lp bg kw (st w) = (Ok out0, s) →
  run_base_renderer self ro rd lp bg kw w =
    (Ok out0, mkWorld s (training w) (next_id w)
                (trace w ++ [EBaseRenderer ro rd lp bg kw out0])).
Proof.
  intros Hb. unfold run_base_renderer, mbind, M_bind, call. by rewrite Hb.
Qed.

(** X4. An exception of the base renderer is not caught: when the rays
    were resized and the base renderer raises [e] on them, [forward] raises
    [e], in the state the base renderer left, and no later line runs (the
    trace ends with the two resizes). *)
Theorem X4_base_renderer_failure_propagates self rays_o rays_d
    light_positions bg_color gt_rgb multi_level_guidance kwargs
    B Hh Ww C level w w1 ro w2 rd w3 e s :
  shape rays_o = [B; Hh; Ww; C] →
  choose_generator_level gt_rgb multi_level_guidance w = (Ok level, w1) →
  downsample_rays rays_o Hh Ww w1 = (Ok ro, w2) →
  downsample_rays rays_d Hh Ww w2 = (Ok rd, w3) →
  vr_forward (base_renderer self) ro rd light_positions bg_color kwargs (st w3) =
    (Raise e, s) →
  forward self rays_o rays_d light_positions bg_color gt_rgb
    multi_level_guidance kwargs w =
    (Raise e, mkWorld s (training w3) (next_id w3) (trace w3)).
Proof.
  intros Hshape Hlevel Hro Hrd Hbase.
  unfold forward, unpack_shape4. rewrite Hshape.
  unfold mbind at 1, M_bind at 1. cbn [liftR].
  unfold mbind at 1, M_bind at 1. rewrite Hlevel.
  unfold mbind at 1, M_bind at 1. rewrite Hro.
  unfold mbind at 1, M_bind at 1. rewrite Hrd.
  unfold mbind at 1, M_bind at 1.
  by rewrite (run_base_renderer_raises _ _ _ _ _ _ _ _ _ Hbase).
Qed.

(** X5. The base renderer must return a tensor of at least one axis under
    [comp_rgb]: a dictionary without that key ends the call with KeyError,
    a value that is no tensor with TypeError, a 0-d tensor with IndexError.
    The call ends right after the base renderer: no encoder, distribution
    or generator is reached. *)
Theorem X5_composite_tensor_required self rays_o rays_d light_positions
    bg_color gt_rgb multi_level_guidance kwargs
    B Hh Ww C level w w1 ro w2 rd w3 out0 s :
  shape rays_o = [B; Hh; Ww; C] →
  choose_generator_level gt_rgb multi_level_guidance w = (Ok level, w1) →
  downsample_rays rays_o Hh Ww w1 = (Ok ro, w2) →
  downsample_rays rays_d Hh Ww w2 = (Ok rd, w3) →
  vr_forward (base_renderer self) ro rd light_positions bg_color kwargs (st w3) =
    (Ok out0, s) →
  let w4 := mkWorld s (training w3) (next_id w3)
              (trace w3 ++
               [EBaseRenderer ro rd light_positions bg_color kwargs out0]) in
  (out0 !! "comp_rgb" = None →
     forward self rays_o rays_d light_positions bg_color gt_rgb
       multi_level_guidance kwargs w = (Raise KeyError, w4)) ∧
  (∀ v, out0 !! "comp_rgb" = Some v → (∀ c, v ≠ VTensor c) →
     forward self rays_o rays_d light_positions bg_color gt_rgb
       multi_level_guidance kwargs w = (Raise TypeError, w4)) ∧
  (∀ c, out0 !! "comp_rgb" = Some (VTensor c) → shape c = [] →
     forward self rays_o rays_d light_positions bg_color gt_rgb
       multi_level_guidance kwargs w = (Raise IndexError, w4)).
Proof.
  intros Hshape Hlevel Hro Hrd Hbase w4.
  assert (∀ e,
    (c ← getitem_tensor
           (<["comp_gt_rgb" := from_option VTensor VNone gt_rgb]> out0)
           "comp_rgb"; slice_last c 0 (Some 3)) = Raise e →
    forward self rays_o rays_d light_positions bg_color gt_rgb
      multi_level_guidance kwargs w = (Raise e, w4)) as Hstop.
  { intros e He. unfold forward, unpack_shape4. rewrite Hshape.
    unfold mbind at 1, M_bind at 1. cbn [liftR].
    unfold mbind at 1, M_bind at 1. rewrite Hlevel.
    unfold mbind at 1, M_bind at 1. rewrite Hro.
    unfold mbind at 1, M_bind at 1. rewrite Hrd.
    unfold mbind at 1, M_bind at 1.
    rewrite (run_base_renderer_returns _ _ _ _ _ _ _ _ _ Hbase).
    cbv zeta. unfold mbind at 1, M_bind at 1. unfold liftR at 1.
    by rewrite He. }
  split; [|split].
  - intros Hnone. apply Hstop. unfold getitem_tensor.
    by rewrite lookup_insert_ne, Hnone by done.
  - intros v Hv Hnt. apply Hstop. unfold getitem_tensor.
    rewrite lookup_insert_ne, Hv by done.
    destruct v; try done. by destruct (Hnt t).
  - intros c Hc Hsh. apply Hstop. unfold getitem_tensor.
    rewrite lookup_insert_ne, Hc by done.
    unfold mbind, Res_bind, slice_last. by rewrite Hsh.
Qed.

(** Running the same steps on both sides of [echo_gt]. *)
Lemma echo_bind {A} gt (m m' : M A) (k k' : A → M (gmap string Value)) w :
  m w = m' w →
  (∀ a w1, m w = (Ok a, w1) → k a w1 = echo_gt gt (k' a w1)) →
  (m ≫= k) w = echo_gt gt ((m' ≫= k') w).
Proof.
  intros Hm Hk. unfold mbind, M_bind. rewrite <- Hm.
  destruct (m w) as [[a|e] w1]; [by apply Hk | reflexivity].
Qed.

Lemma getitem_tensor_insert_ne (d : gmap string Value) k k' v :
  k' ≠ k → getitem_tensor (<[k' := v]> d) k = getitem_tensor d k.
Proof. intros Hne. unfold getitem_tensor. by rewrite lookup_insert_ne. Qed.

Lemma echo_record (out0 : gmap string Value) vgt vlr vp vgan vup vlevel :
  <["generator_level" := vlevel]>
    (<["comp_rgb" := vup]>
      (<["comp_gan_rgb" := vgan]>
        (<["posterior" := vp]>
          (<["comp_lr_rgb" := vlr]>
            (<["comp_gt_rgb" := vgt]> out0))))) =
  <["comp_gt_rgb" := vgt]>
    (<["generator_level" := vlevel]>
      (<["comp_rgb" := vup]>
        (<["comp_gan_rgb" := vgan]>
          (<["posterior" := vp]>
            (<["comp_lr_rgb" := vlr]>
              (<["comp_gt_rgb" := VNone]> out0)))))).
Proof.
  apply map_eq. intros k. rewrite !lookup_insert.
  repeat case_decide; simplify_eq; done.
Qed.

(** X6. Without multi-level guidance the ground truth is not used: the
    call does what the call without a ground truth does, whatever the flag
    of that one, same result or exception and same world, and the ground
    truth is only written under [comp_gt_rgb]. *)
Theorem X6_ground_truth_only_echoed self rays_o rays_d light_positions
    bg_color gt_rgb multi_level_guidance kwargs w :
  forward self rays_o rays_d light_positions bg_color gt_rgb false kwargs w =
  echo_gt gt_rgb
    (forward self rays_o rays_d light_positions bg_color None
       multi_level_guidance kwargs w).
Proof.
  unfold forward.
  apply echo_bind; [done|]. intros [[[B Hh] Ww] C] w0 _.
  apply echo_bind; [by rewrite !choose_level_forced by auto|].
  intros level w1 Hlevel. rewrite choose_level_forced in Hlevel by auto.
  injection Hlevel as <- <-.
  apply echo_bind; [done|]. intros ro w2 _.
  apply echo_bind; [done|]. intros rd w3 _.
  apply echo_bind; [done|]. intros out0 w4 _. cbv zeta.
  apply echo_bind;
    [unfold liftR; by rewrite !getitem_tensor_insert_ne by done|].
  intros comp w5 _.
  apply echo_bind;
    [unfold liftR; by rewrite !getitem_tensor_insert_ne by done|].
  intros latent w6 _.
  apply echo_bind; [done|]. intros lr w7 _.
  apply echo_bind; [done|]. intros lpm w8 _.
  apply echo_bind; [done|]. intros p1 w9 _.
  apply echo_bind; [done|]. intros z1 w10 _.
  apply echo_bind; [done|]. intros lr_rgb w11 _.
  apply echo_bind; [done|]. intros [p o] w12 _.
  apply echo_bind; [done|]. intros cp w13 _.
  apply echo_bind; [done|]. intros up w14 _.
  apply echo_bind; [done|]. intros gan w15 _.
  apply echo_bind; [done|]. intros upp w16 _.
  unfold echo_gt, mret, M_ret. cbn [fst snd].
  do 2 f_equal. apply echo_record.
Qed.

(** Buffers allocated after the caller's: a write through their handles
    leaves every tensor of the caller as it was. *)
Lemma new_buffers_apart (h : list Data) n m lr gan upp :
  n ≤ storage lr → storage lr < storage upp → storage gan < storage upp →
  storage upp < m →
  (n ≤ storage lr ∧ storage lr < storage upp ∧ storage gan < storage upp ∧
   storage upp < m) ∧
  ∀ t d, storage t < n →
    contents t (mutate lr d h) = contents t h ∧
    contents t (mutate upp d h) = contents t h.
Proof.
  intros H1 H2 H3 H4. split; [done|]. intros t d Ht.
  split; apply contents_mutate_other; lia.
Qed.

(** X7. When the collaborators only add buffers and the generator returns
    a tensor of the store, [comp_lr_rgb] and [comp_rgb] of the output read
    buffers allocated during the call, the one of [comp_rgb] after those
    of [comp_lr_rgb] and [comp_gan_rgb]: it is shared with neither, and a
    write through [comp_lr_rgb] or [comp_rgb] leaves every tensor the
    caller held unchanged. *)
Theorem X7_outputs_read_new_buffers self rays_o rays_d light_positions
    bg_color gt_rgb multi_level_guidance kwargs w out w' :
  collaborators (λ A, respects extends_store (λ _, True)) self →
  (∀ x g, returns_stored (generator self x g)) →
  forward self rays_o rays_d light_positions bg_color gt_rgb
    multi_level_guidance kwargs w = (Ok out, w') →
  ∃ lr gan upp,
    out !! "comp_lr_rgb" = Some (VTensor lr) ∧
    out !! "comp_gan_rgb" = Some (VTensor gan) ∧
    out !! "comp_rgb" = Some (VTensor upp) ∧
    (length (heap (st w)) ≤ storage lr ∧ storage lr < storage upp ∧
     storage gan < storage upp ∧ storage upp < length (heap (st w'))) ∧
    ∀ t d, storage t < length (heap (st w)) →
      contents t (mutate lr d (heap (st w'))) = contents t (heap (st w')) ∧
      contents t (mutate upp d (heap (st w'))) = contents t (heap (st w')).
Proof.
  intros (Hbase & Hglobal & Hlocal & Hgen & Hinit & Hsample) Hstored Hrun.
  exec Hrun.
  all: eexists _, _, _.
  all: split; [by rewrite lookup_insert_ne, lookup_insert_ne, lookup_insert_ne,
                 lookup_insert_ne, lookup_insert_eq by done|].
  all: split; [by rewrite lookup_insert_ne, lookup_insert_ne, lookup_insert_eq
                 by done|].
  all: split; [by rewrite lookup_insert_ne, lookup_insert_eq by done|].
  all: apply new_buffers_apart.
  all: repeat match goal with
       | Hp : permute _ [0; 2; 3; 1] = Ok ?t |- context [storage ?t] =>
           rewrite (permute_storage _ _ _ Hp)
       end.
  all: cbn [storage].
  all: repeat match goal with
       | Hc : generator _ _ _ _ = (Ok _, _) |- _ =>
           pose proof (Hstored _ _ _ _ _ Hc);
           apply Hgen in Hc as [Hc%prefix_length _]
       | Hc : vr_forward _ _ _ _ _ _ _ = (Ok _, _) |- _ =>
           apply Hbase in Hc as [Hc%prefix_length _]
       | Hc : dist_init _ _ = (Ok _, _) |- _ =>
           apply Hinit in Hc as [Hc%prefix_length _]
       | Hc : dist_sample _ _ = (Ok _, _) |- _ =>
           apply Hsample in Hc as [Hc%prefix_length _]
       | Hc : local_encoder _ _ _ = (Ok _, _) |- _ =>
           apply Hlocal in Hc as [Hc%prefix_length _]
       | Hc : global_encoder _ _ _ = (Ok _, _) |- _ =>
           apply Hglobal in Hc as [Hc%prefix_length _]
       end.
  all: cbn [heap] in *.
  all: rewrite ?length_app in *; cbn [length] in *.
  all: lia.
Qed.

(** X8. In a call that returns the global encoder is called once, and
    always on a new tensor of spatial size 224 x 224 made by a
    nearest-neighbour resize, with the batch and channels of its source;
    the code it returns is the one the generator is called with. *)
Theorem X8_global_encoder_sees_224 self rays_o rays_d light_positions
    bg_color gt_rgb multi_level_guidance kwargs w out w' :
  forward self rays_o rays_d light_positions bg_color gt_rgb
    multi_level_guidance kwargs w = (Ok out, w') →
  ∃ src x g n c h wd cin y,
    global_encoder_calls (new_events w w') = [(x, g)] ∧
    EInterpolate src (224, 224) Nearest x ∈ new_events w w' ∧
    shape x = [n; c; 224; 224] ∧ views x = [] ∧
    shape src = [n; c; h; wd] ∧
    EGenerator cin g y ∈ new_events w w'.
Proof.
  intros Hrun. exec Hrun.
  all: events; level_cases; cbn [app].
  all: eexists _, _, _, _, _, _, _, _, _.
  all: split; [reflexivity|].
  all: split; [in_events|].
  all: split; [reflexivity|].
  all: split; [reflexivity|].
  all: split; [eassumption|].
  all: in_events.
Qed.

(** X9. Every distribution object of a call is constructed by that call,
    with an identity no earlier object has: one object at levels 0 and 1,
    two at level 2, numbered from the counter on, and the one returned
    under [posterior] is the last one constructed. *)
Theorem X9_posterior_constructed_by_call self rays_o rays_d light_positions
    bg_color gt_rgb multi_level_guidance kwargs w out w' :
  forward self rays_o rays_d light_positions bg_color gt_rgb
    multi_level_guidance kwargs w = (Ok out, w') →
  ∃ level p,
    out !! "generator_level" = Some (VInt level) ∧
    out !! "posterior" = Some (VDist p) ∧
    dist_id <$> dists_built (new_events w w') =
      seq (next_id w) (if (level =? 2)%Z then 2 else 1) ∧
    last (dists_built (new_events w w')) = Some p ∧
    next_id w' = next_id w + (if (level =? 2)%Z then 2 else 1).
Proof.
  intros Hrun. exec Hrun.
  all: events; level_cases; cbn [app].
  all: eexists _, _.
  all: split; [apply lookup_insert_eq|].
  all: split; [by rewrite lookup_insert_ne, lookup_insert_ne, lookup_insert_ne,
                 lookup_insert_eq by done|].
  all: split; [reflexivity|].
  all: split; [reflexivity|].
  all: cbn [Z.eqb Pos.eqb]; lia.
Qed.

(** X10. [comp_gan_rgb] is a view of the tensor the generator returned,
    with its channels moved last: same buffer, no copy. A call returns only
    if the generator returned a 4-D tensor. *)
Theorem X10_refined_is_view_of_generator_output self rays_o rays_d
    light_positions bg_color gt_rgb multi_level_guidance kwargs w out w' :
  forward self rays_o rays_d light_positions bg_color gt_rgb
    multi_level_guidance kwargs w = (Ok out, w') →
  ∃ x g y a b c d,
    EGenerator x g y ∈ new_events w w' ∧
    shape y = [a; b; c; d] ∧
    out !! "comp_gan_rgb" =
      Some (VTensor (mkTensor (storage y) [a; c; d; b]
                       (views y ++ [VPermute [0; 2; 3; 1]]))).
Proof.
  intros Hrun. exec Hrun.
  all: events; level_cases; cbn [app].
  all: match goal with
       | Hp : permute ?y [0; 2; 3; 1] = Ok _,
         Hg : generator _ ?x ?g _ = (Ok ?y, _) |- _ =>
           destruct (permute_0231_Ok _ _ Hp) as (? & ? & ? & ? & ? & ->);
           eexists x, g, y, _, _, _, _
       end.
  all: split; [in_events|].
  all: split; [eassumption|].
  all: by rewrite lookup_insert_ne, lookup_insert_ne, lookup_insert_eq by done.
Qed.

Lemma cat_shape_channels a z n c h wd sh :
  shape a = [n; c; h; wd] →
  cat_shape [a; z] 1 = Ok sh →
  ∃ c', sh = [n; c'; h; wd].
Proof.
  intros Ha. unfold cat_shape.
  rewrite filter_cons_True by (rewrite Ha; discriminate).
  destruct (decide (shape z ≠ [0])) as [Hz | Hz].
  - rewrite filter_cons_True by done. rewrite filter_nil.
    case_bool_decide; [|discriminate]. intros [= <-]. rewrite Ha. by eexists.
  - rewrite filter_cons_False by done. rewrite filter_nil.
    case_bool_decide; [|discriminate]. intros [= <-]. rewrite Ha. by eexists.
Qed.

Lemma permute_0312_shape (t p : Tensor) a b c d :
  permute t [0; 3; 1; 2] = Ok p → shape t = [a; b; c; d] →
  shape p = [a; d; b; c].
Proof.
  intros (a' & b' & c' & d' & Hs & ->)%permute_0312_Ok Ht.
  rewrite Ht in Hs. by injection Hs as <- <- <- <-.
Qed.

Lemma permute_0231_shape (t p : Tensor) a b c d :
  permute t [0; 2; 3; 1] = Ok p → shape t = [a; b; c; d] →
  shape p = [a; c; d; b].
Proof.
  intros (a' & b' & c' & d' & Hs & ->)%permute_0231_Ok Ht.
  rewrite Ht in Hs. by injection Hs as <- <- <- <-.
Qed.

(** The generator's call in the branch: its input is the concatenation. *)
Lemma guidance_branch_generator_input self level gt_rgb lr_rgb p1 z1 w p o w' :
  guidance_branch self level gt_rgb lr_rgb p1 z1 w = (Ok (p, o), w') →
  o = None ∨
  ∃ z x g y s s', o = Some y ∧
    cat_shape [lr_rgb; z] 1 = Ok (shape x) ∧
    generator self x g s = (Ok y, s').
Proof.
  unfold guidance_branch. intros Hrun.
  destruct (level =? 0)%Z; [|destruct (level =? 1)%Z; [|destruct (level =? 2)%Z]].
  4: { apply ret_Ok in Hrun as [[= -> ->] ->]. by left. }
  all: repeat (apply bind_Ok in Hrun as (? & ? & ? & Hrun)).
  all: apply ret_Ok in Hrun as [[= -> ->] _].
  all: match goal with
       | Hc : cat _ _ _ = (Ok _, _) |- _ =>
           apply cat_Ok in Hc as (sh & Hsh & (d & -> & _))
       end.
  all: match goal with
       | Hg : run_generator _ _ _ _ = (Ok _, _) |- _ =>
           apply logged_call_Ok in Hg as (s & Hg & _)
       end.
  all: right; eexists _, _, _, _, _, _; (split; [done|]);
    (split; [|eassumption]); exact Hsh.
Qed.

(** The sizes along a returning call. *)
Lemma forward_generator_input self rays_o rays_d light_positions bg_color
    gt_rgb multi_level_guidance kwargs B Hh Ww C w out w' :
  shape rays_o = [B; Hh; Ww; C] →
  forward self rays_o rays_d light_positions bg_color gt_rgb
    multi_level_guidance kwargs w = (Ok out, w') →
  ∃ ro rd s0 out0 s0' c comp lr_rgb z x g y s s' gan,
    shape ro = [B; Hh / 4; Ww / 4; C] ∧
    vr_forward (base_renderer self) ro rd light_positions bg_color kwargs s0 =
      (Ok out0, s0') ∧
    out0 !! "comp_rgb" = Some (VTensor c) ∧
    slice_last c 0 (Some 3) = Ok comp ∧
    permute comp [0; 3; 1; 2] = Ok lr_rgb ∧
    cat_shape [lr_rgb; z] 1 = Ok (shape x) ∧
    generator self x g s = (Ok y, s') ∧
    permute y [0; 2; 3; 1] = Ok gan ∧
    out !! "comp_gan_rgb" = Some (VTensor gan).
Proof.
  unfold forward. intros Hshape Hrun.
  apply bind_Ok in Hrun as ([[[B' Hh'] Ww'] C'] & w0 & Hu & Hrun).
  apply liftR_Ok in Hu as [Hu ->].
  unfold unpack_shape4 in Hu. rewrite Hshape in Hu.
  injection Hu as <- <- <- <-.
  apply bind_Ok in Hrun as (level & w1 & Hlevel & Hrun).
  apply bind_Ok in Hrun as (ro & w2 & Hro & Hrun).
  apply downsample_rays_Ok in Hro
    as (b & h & wd & c0 & pr & ir & Hsr & _ & _ & _ & Hro).
  rewrite Hshape in Hsr. injection Hsr as <- <- <- <-.
  apply bind_Ok in Hrun as (rd & w3 & Hrd & Hrun).
  apply bind_Ok in Hrun as (out0 & w4 & Hbase & Hrun).
  apply logged_call_Ok in Hbase as (s0' & Hbase & _).
  apply bind_Ok in Hrun as (comp & w4' & Hcomp & Hrun).
  apply liftR_Ok in Hcomp as [Hcomp _].
  apply res_bind_Ok in Hcomp as (c & Hc & Hcomp).
  apply getitem_tensor_Ok in Hc. rewrite lookup_insert_ne in Hc by done.
  do 5 (apply bind_Ok in Hrun as (? & ? & _ & Hrun)).
  apply bind_Ok in Hrun as (lr_rgb & w7 & Hlr_rgb & Hrun).
  apply liftR_Ok in Hlr_rgb as [Hlr_rgb _].
  apply res_bind_Ok in Hlr_rgb as (lr_rgb' & Hlr_rgb & [= <-]).
  apply bind_Ok in Hrun as ([p o] & w8 & Hbranch & Hrun).
  apply guidance_branch_generator_input in Hbranch
    as [-> | (zm & xin & gc & yo & sg & sg' & -> & Hcat & Hgen)].
  { do 2 (apply bind_Ok in Hrun as (? & ? & _ & Hrun)).
    apply bind_Ok in Hrun as (? & ? & Hgan & _).
    by apply liftR_Ok in Hgan as [? _]. }
  do 2 (apply bind_Ok in Hrun as (? & ? & _ & Hrun)).
  apply bind_Ok in Hrun as (gan & w9 & Hgan & Hrun).
  apply liftR_Ok in Hgan as [Hgan _].
  apply bind_Ok in Hrun as (upp & w10 & _ & Hrun).
  apply ret_Ok in Hrun as [-> _].
  exists ro, rd, (st w3), out0, s0', c, comp, lr_rgb', zm, xin, gc, yo, sg, sg', gan.
  split; [by rewrite Hro|]. do 7 (split; [done|]).
  by rewrite lookup_insert_ne, lookup_insert_ne, lookup_insert_eq by done.
Qed.

(** X11. When the base renderer keeps the batch and spatial size of the
    rays it is given and the generator upsamples four times, the refined
    image [comp_gan_rgb] has spatial size 4 * (H / 4) by 4 * (W / 4): it has
    the shape (B, H, W, 3) of the ground truth and of [comp_rgb] exactly
    when H and W are multiples of 4. *)
Theorem X11_refined_size self rays_o rays_d light_positions bg_color
    gt_rgb multi_level_guidance kwargs B Hh Ww C w out w' :
  shape rays_o = [B; Hh; Ww; C] →
  base_keeps_size (base_renderer self) →
  generator_upsamples_4x self →
  forward self rays_o rays_d light_positions bg_color gt_rgb
    multi_level_guidance kwargs w = (Ok out, w') →
  ∃ gan,
    out !! "comp_gan_rgb" = Some (VTensor gan) ∧
    shape gan = [B; 4 * (Hh / 4); 4 * (Ww / 4); 3] ∧
    (shape gan = [B; Hh; Ww; 3] ↔ Hh `mod` 4 = 0 ∧ Ww `mod` 4 = 0).
Proof.
  intros Hshape Hbase Hgen Hrun.
  destruct (forward_generator_input _ _ _ _ _ _ _ _ _ _ _ _ _ _ _ Hshape Hrun)
    as (ro & rd & s0 & out0 & s0' & c & comp & lr_rgb & z & x & g & y & s & s' &
        gan & Hro & Hb & Hc & Hcomp & Hlr & Hcat & Hg & Hgan & Hout).
  destruct (Hbase _ _ _ _ _ _ _ _ _ _ _ _ Hb Hro) as (c' & C' & Hc' & Hsc & HC).
  rewrite Hc in Hc'. injection Hc' as <-.
  destruct (slice_last_shape4 _ _ _ _ _ _ _ _ Hcomp Hsc) as [Hscomp _].
  cbn [default from_option id] in Hscomp.
  replace (3 `min` C' - 0 `min` C') with 3 in Hscomp by lia.
  pose proof (permute_0312_shape _ _ _ _ _ _ Hlr Hscomp) as Hslr.
  destruct (cat_shape_channels _ _ _ _ _ _ _ Hslr Hcat) as (c'' & Hsx).
  pose proof (Hgen _ _ _ _ _ _ _ _ _ Hg Hsx) as Hsy.
  pose proof (permute_0231_shape _ _ _ _ _ _ Hgan Hsy) as Hsgan.
  exists gan. split; [exact Hout|]. split; [exact Hsgan|]. rewrite Hsgan.
  pose proof (Nat.div_mod_eq Hh 4). pose proof (Nat.div_mod_eq Ww 4).
  split.
  - intros Heq.
    assert (4 * (Hh / 4) = Hh ∧ 4 * (Ww / 4) = Ww) as [Eh Ew]
      by (split; congruence).
    lia.
  - intros [Eh Ew]. do 2 f_equal; [lia|f_equal; lia].
Qed.

End Extras.

(** * The properties on the concrete renderer *)

Section ExtraRuns.
Import Demo Faulty.

Ltac demo_respects :=
  intros ? ? ?; unfold nerf_forward, fresh_tensor; repeat case_match;
  intros [= <- <-];
  (split;
   [ unfold extends_store; cbn [heap]; rewrite <- ?app_assoc;
     first [done | by apply prefix_app_r]
   | first [done | by eexists] ]).

Lemma demo_collaborators :
  collaborators (λ A, respects extends_store collaborator_error) self.
Proof.
  unfold collaborators. split_and!; intros.
  - cbn [vr_forward base_renderer self nerf]. demo_respects.
  - cbn [global_encoder self]. demo_respects.
  - cbn [local_encoder self]. demo_respects.
  - cbn [generator self]. demo_respects.
  - cbn [dist_init gaussian]. demo_respects.
  - cbn [dist_sample gaussian]. demo_respects.
Qed.

Lemma demo_store_discipline :
  collaborators (λ A, respects extends_store (λ _, True)) self.
Proof.
  generalize demo_collaborators. apply collaborators_mono. intros A f.
  by apply respects_weaken.
Qed.

Lemma demo_errors_tagged :
  collaborators (λ A, respects (λ _ _, True) collaborator_error) self.
Proof.
  generalize demo_collaborators. apply collaborators_mono. intros A f.
  by apply respects_weaken.
Qed.

Lemma demo_generator_stored x g : returns_stored (generator self x g).
Proof.
  intros s r s'. cbn [generator self]. unfold fresh_tensor.
  repeat case_match; intros [= <- <-]. cbn [storage heap].
  rewrite length_app. simpl. lia.
Qed.

Lemma run_small :
  forward self (rays_o 3) (rays_d 3) light_positions None None false ∅
    (world 0) = (Raise RuntimeError, world 0).
Proof. reflexivity. Qed.

Lemma X1_witness :
  forward self (rays_o 8) (rays_d 8) light_positions None (Some (gt_rgb 8))
    true ∅ (world 2) = (Ok out_level2, world_level2) ∧
  contents (gt_rgb 8) (heap (st world_level2)) = Some (SInput "gt").
Proof.
  split; [exact run_level2|].
  exact (proj2 (X1_forward_only_extends_store self (rays_o 8) (rays_d 8)
                  light_positions None (Some (gt_rgb 8)) true ∅ (world 2)
                  (Ok out_level2) world_level2 demo_store_discipline
                  run_level2)
           (gt_rgb 8) (SInput "gt") eq_refl).
Defined.

Lemma X2_witness :
  forward self (rays_o 3) (rays_d 3) light_positions None None false ∅
    (world 0) = (Raise RuntimeError, world 0) ∧
  (RuntimeError ∈ own_errors ∨ collaborator_error RuntimeError).
Proof.
  split; [exact run_small|].
  exact (proj1 (X2_forward_exception_provenance self (rays_o 3) (rays_d 3)
                  light_positions None None false ∅ collaborator_error
                  (world 0) RuntimeError (world 0) demo_errors_tagged
                  run_small)).
Defined.

Lemma X3_witness :
  (length (shape light_positions) ≠ 4 ∧
   forward self light_positions (rays_d 8) light_positions None None false ∅
     (world 0) = (Raise ValueError, world 0)) ∧
  shape (rays_o 3) = [1; 3; 3; 3] ∧ 3 < 4 ∧
  ∃ w', forward self (rays_o 3) (rays_d 3) light_positions None
          (Some (gt_rgb 3)) true ∅ (world 1) = (Raise RuntimeError, w') ∧
        base_calls (new_events (world 1) w') = [].
Proof.
  split.
  { split; [simpl; lia|].
    apply (proj1 (X3_malformed_rays_never_rendered self light_positions
                    (rays_d 8) light_positions None None false ∅ (world 0))).
    simpl; lia. }
  split; [reflexivity|]. split; [lia|].
  destruct (proj2 (X3_malformed_rays_never_rendered self (rays_o 3) (rays_d 3)
                     light_positions None (Some (gt_rgb 3)) true ∅ (world 1))
              1 3 3 3 eq_refl (or_introl (Nat.lt_succ_diag_r 3)))
    as (w' & Hrun & _ & _ & _ & Hcalls).
  by exists w'.
Defined.

Lemma X4_witness :
  vr_forward nerf_raising ro8 rd8 light_positions None ∅ (st world_rd8) =
    (Raise (CollaboratorError "out of memory"), st world_rd8) ∧
  forward (with_base nerf_raising) (rays_o 8) (rays_d 8) light_positions None
    None false ∅ (world 0) =
    (Raise (CollaboratorError "out of memory"),
     mkWorld (st world_rd8) (training world_rd8) (next_id world_rd8)
       (trace world_rd8)).
Proof.
  split; [reflexivity|].
  exact (X4_base_renderer_failure_propagates (with_base nerf_raising)
           (rays_o 8) (rays_d 8) light_positions None None false ∅
           1 8 8 3 0%Z (world 0) (world 0) ro8 world_ro8 rd8 world_rd8
           (CollaboratorError "out of memory") (st world_rd8)
           eq_refl eq_refl eq_refl eq_refl eq_refl).
Defined.

Lemma X5_witness :
  vr_forward nerf_bare ro8 rd8 light_positions None ∅ (st world_rd8) =
    (Ok out_bare, state_bare) ∧
  out_bare !! "comp_rgb" = None ∧
  forward (with_base nerf_bare) (rays_o 8) (rays_d 8) light_positions None
    None false ∅ (world 0) =
    (Raise KeyError,
     mkWorld state_bare (training world_rd8) (next_id world_rd8)
       (trace world_rd8 ++
        [EBaseRenderer ro8 rd8 light_positions None ∅ out_bare])).
Proof.
  split; [reflexivity|]. split; [reflexivity|].
  exact (proj1 (X5_composite_tensor_required (with_base nerf_bare)
                  (rays_o 8) (rays_d 8) light_positions None None false ∅
                  1 8 8 3 0%Z (world 0) (world 0) ro8 world_ro8 rd8 world_rd8
                  out_bare state_bare
                  eq_refl eq_refl eq_refl eq_refl eq_refl)
           eq_refl).
Defined.

Lemma X7_witness :
  forward self (rays_o 8) (rays_d 8) light_positions None (Some (gt_rgb 8))
    true ∅ (world 2) = (Ok out_level2, world_level2) ∧
  ∃ lr upp,
    out_level2 !! "comp_lr_rgb" = Some (VTensor lr) ∧
    out_level2 !! "comp_rgb" = Some (VTensor upp) ∧
    storage lr < storage upp.
Proof.
  split; [exact run_level2|].
  destruct (X7_outputs_read_new_buffers self (rays_o 8) (rays_d 8)
              light_positions None (Some (gt_rgb 8)) true ∅ (world 2)
              out_level2 world_level2
              demo_store_discipline demo_generator_stored run_level2)
    as (lr & gan & upp & Hlr & _ & Hupp & (_ & Hlt & _) & _).
  by exists lr, upp.
Defined.

Lemma X8_witness :
  forward self (rays_o 8) (rays_d 8) light_positions None (Some (gt_rgb 8))
    true ∅ (world 2) = (Ok out_level2, world_level2) ∧
  ∃ x g n c,
    global_encoder_calls (new_events (world 2) world_level2) = [(x, g)] ∧
    shape x = [n; c; 224; 224].
Proof.
  split; [exact run_level2|].
  destruct (X8_global_encoder_sees_224 self (rays_o 8) (rays_d 8)
              light_positions None (Some (gt_rgb 8)) true ∅ (world 2)
              out_level2 world_level2 run_level2)
    as (src & x & g & n & c & h & wd & cin & y & Hcalls & _ & Hshape & _).
  by exists x, g, n, c.
Defined.

Lemma X9_witness :
  forward self (rays_o 8) (rays_d 8) light_positions None (Some (gt_rgb 8))
    true ∅ (world 2) = (Ok out_level2, world_level2) ∧
  ∃ p, out_level2 !! "posterior" = Some (VDist p) ∧
       last (dists_built (new_events (world 2) world_level2)) = Some p.
Proof.
  split; [exact run_level2|].
  destruct (X9_posterior_constructed_by_call self (rays_o 8) (rays_d 8)
              light_positions None (Some (gt_rgb 8)) true ∅ (world 2)
              out_level2 world_level2 run_level2)
    as (level & p & _ & Hp & _ & Hlast & _).
  by exists p.
Defined.

Lemma demo_base_keeps_size : base_keeps_size (base_renderer self).
Proof.
  intros ro rd lp bg kw s out0 s' n h wd c0.
  cbn [vr_forward base_renderer self nerf]. unfold nerf_forward, fresh_tensor.
  intros Hrun Hshape. rewrite Hshape in Hrun. injection Hrun as <- _.
  exists (mkTensor (length (heap s)) [n; h; wd; 11] []), 11.
  split; [|split; [reflexivity|lia]].
  by rewrite lookup_insert_ne, lookup_insert_eq by done.
Qed.

Lemma demo_generator_upsamples : generator_upsamples_4x self.
Proof.
  intros x g s y s' n c h wd. cbn [generator self]. unfold fresh_tensor.
  intros Hrun Hshape. rewrite Hshape in Hrun. by injection Hrun as <- _.
Qed.

Lemma X10_witness :
  forward self (rays_o 8) (rays_d 8) light_positions None (Some (gt_rgb 8))
    true ∅ (world 2) = (Ok out_level2, world_level2) ∧
  ∃ y a b c d,
    out_level2 !! "comp_gan_rgb" =
      Some (VTensor (mkTensor (storage y) [a; c; d; b]
                       (views y ++ [VPermute [0; 2; 3; 1]]))).
Proof.
  split; [exact run_level2|].
  destruct (X10_refined_is_view_of_generator_output self (rays_o 8) (rays_d 8)
              light_positions None (Some (gt_rgb 8)) true ∅ (world 2)
              out_level2 world_level2 run_level2)
    as (x & g & y & a & b & c & d & _ & _ & Hgan).
  by exists y, a, b, c, d.
Defined.

Lemma X11_witness :
  shape (rays_o 8) = [1; 8; 8; 3] ∧
  forward self (rays_o 8) (rays_d 8) light_positions None (Some (gt_rgb 8))
    true ∅ (world 2) = (Ok out_level2, world_level2) ∧
  ∃ gan, out_level2 !! "comp_gan_rgb" = Some (VTensor gan) ∧
         shape gan = [1; 4 * (8 / 4); 4 * (8 / 4); 3].
Proof.
  split; [reflexivity|]. split; [exact run_level2|].
  destruct (X11_refined_size self (rays_o 8) (rays_d 8) light_positions None
              (Some (gt_rgb 8)) true ∅ 1 8 8 3 (world 2) out_level2
              world_level2 eq_refl demo_base_keeps_size
              demo_generator_upsamples run_level2)
    as (gan & Hgan & Hshape & _).
  by exists gan.
Defined.

End ExtraRuns.

(** * Steady computations

    Rules for [steady]: the part of [forward] that follows the level choice
    gives the same results and advances the generator by the same fair
    map on worlds that differ in the generator only. *)

Section Steady.
Context `{Platform} `{!DistributionClass}.

Lemma fair_map_id : fair_map id.
Proof. intros lo hi n Ω. by rewrite list_fmap_id. Qed.

Lemma fair_map_compose T1 T2 :
  fair_map T1 → fair_map T2 → fair_map (T2 ∘ T1).
Proof.
  intros H1 H2 lo hi n Ω HΩ. rewrite list_fmap_compose. auto.
Qed.

Lemma alike_refl w : alike w w.
Proof. by repeat split. Qed.

Ltac alike_solve :=
  unfold alike, alike_state in *; simpl in *;
  rewrite ?length_app; simpl;
  intuition (try congruence).

(** A computation that neither reads the generator nor depends on more
    than the sizes of the store. *)
Lemma steady_still {A} (m : M A) :
  (∀ w w', alike w w' →
     (m w').1 = (m w).1 ∧ alike (m w).2 (m w').2 ∧
     rng (st (m w').2) = rng (st w')) →
  steady m.
Proof. intros Hm w. exists id. split; [apply fair_map_id|]. by apply Hm. Qed.

Lemma steady_ret {A} (a : A) : steady (mret a).
Proof. by apply steady_still. Qed.

Lemma steady_liftR {A} (r : Res A) : steady (liftR r).
Proof. by apply steady_still. Qed.

Lemma steady_log e : steady (log e).
Proof.
  apply steady_still. intros w w' Hal. unfold log. alike_solve.
Qed.

Lemma steady_fresh_id : steady fresh_id.
Proof.
  apply steady_still. intros w w' Hal. unfold fresh_id. alike_solve.
Qed.

Lemma steady_bind {A B} (m : M A) (k : A → M B) :
  steady m → (∀ a, steady (k a)) → steady (m ≫= k).
Proof.
  intros Hm Hk w. destruct (Hm w) as (T1 & HT1 & H1).
  unfold mbind, M_bind.
  destruct (m w) as [[a|e] w1] eqn:Hmw.
  - destruct (Hk a w1) as (T2 & HT2 & H2).
    exists (T2 ∘ T1). split; [by apply fair_map_compose|].
    intros w' Hal. destruct (H1 w' Hal) as (Hr & Hw & Hg).
    destruct (m w') as [r' w1']. simpl in *. subst r'.
    destruct (H2 w1' Hw) as (Hr2 & Hw2 & Hg2).
    split; [done|]. split; [done|]. by rewrite Hg2, Hg.
  - exists T1. split; [done|].
    intros w' Hal. destruct (H1 w' Hal) as (Hr & Hw & Hg).
    destruct (m w') as [r' w1']. simpl in *. by subst r'.
Qed.

Lemma steady_call {A} (f : State → Res A * State) :
  oblivious f → steady (call f).
Proof.
  intros Hf w. destruct (Hf (st w)) as (T & HT & Hs).
  exists T. split; [done|]. intros w' (Hal & Hn).
  destruct (Hs (st w') Hal) as (Hr & Hal' & Hg).
  unfold call. destruct (f (st w)) as [r s1], (f (st w')) as [r' s1'].
  alike_solve.
Qed.

Lemma contents_is_Some t (h : list Data) :
  is_Some (contents t h) ↔ storage t < length h.
Proof.
  unfold contents. rewrite fmap_is_Some. apply lookup_lt_is_Some.
Qed.

(** Reading, then allocating a buffer computed from what was read: the
    result is the new handle, whatever was read. *)
Lemma steady_read_alloc t sh (F : Data → Data) (ev : Tensor → Event) :
  steady (d ← read t; r ← alloc sh (F d); log (ev r);; mret r).
Proof.
  apply steady_still. intros w w' ((Hh & He) & Hn).
  unfold mbind, M_bind, read.
  pose proof (contents_is_Some t (heap (st w))) as Hc.
  pose proof (contents_is_Some t (heap (st w'))) as Hc'.
  destruct (contents t (heap (st w))) as [d|],
           (contents t (heap (st w'))) as [d'|]; simpl.
  - unfold alloc, log. alike_solve.
  - exfalso. rewrite Hh in Hc. apply (is_Some_None (A := Data)), Hc', Hc. by eexists.
  - exfalso. rewrite Hh in Hc. apply (is_Some_None (A := Data)), Hc, Hc'. by eexists.
  - alike_solve.
Qed.

Lemma steady_interpolate input size mode : steady (interpolate input size mode).
Proof.
  unfold interpolate. repeat case_match; try apply steady_liftR.
  apply (steady_read_alloc input _ (interp_data mode size)
           (λ r, EInterpolate input size mode r)).
Qed.

Lemma steady_clone t : steady (clone t).
Proof. apply (steady_read_alloc t (shape t) id (λ r, EClone t r)). Qed.

Lemma mapM_read_status ts w :
  (mapM read ts w).2 = w ∧
  match (mapM read ts w).1 with
  | Ok ds => Forall (λ t, storage t < length (heap (st w))) ts
  | Raise e => e = InvalidHandle ∧
               ¬ Forall (λ t, storage t < length (heap (st w))) ts
  end.
Proof.
  induction ts as [|t ts IH]; simpl.
  - split; [done|]. constructor.
  - unfold mbind, M_bind, mret, M_ret.
    pose proof (contents_is_Some t (heap (st w))) as Hc.
    destruct (read t w) as [[d|e] w0] eqn:Hrd; unfold read in Hrd;
      destruct (contents t (heap (st w))) as [d0|]; try discriminate;
      injection Hrd as ? ?; subst w0; simpl.
    + destruct IH as [Hw IH].
      destruct (mapM read ts w) as [[ds|e] w1]; simpl in *; subst w1.
      * split; [done|]. constructor; [|done]. apply Hc. by eexists.
      * split; [done|]. destruct IH as [-> Hn]. split; [done|].
        intros Hall. apply Hn. by inversion Hall.
    + split; [done|]. split; [done|]. intros Hall.
      inversion Hall as [|? ? Ht _]. apply Hc in Ht. by destruct Ht.
Qed.

Lemma steady_cat ts dim : steady (cat ts dim).
Proof.
  apply steady_still. intros w w' ((Hh & He) & Hn).
  unfold cat, mbind, M_bind, liftR, alloc, log, mret, M_ret.
  destruct (cat_shape ts dim) as [sh|e]; [|alike_solve].
  destruct (mapM_read_status ts w) as [Hw Hr].
  destruct (mapM_read_status ts w') as [Hw' Hr'].
  destruct (mapM read ts w) as [[ds|e] w1],
           (mapM read ts w') as [[ds'|e'] w1']; simpl in *; subst w1 w1'.
  - alike_solve.
  - exfalso. destruct Hr' as [_ Hn']. apply Hn'. by rewrite <- Hh.
  - exfalso. destruct Hr as [_ Hn']. apply Hn'. by rewrite Hh.
  - destruct Hr as [-> _], Hr' as [-> _]. alike_solve.
Qed.

Variable self : GANVolumeRenderer.
Hypothesis collab : collaborators (λ A, oblivious) self.

Ltac steady_step :=
  first
    [ apply steady_ret | apply steady_liftR | apply steady_log
    | apply steady_fresh_id | apply steady_interpolate | apply steady_clone
    | apply steady_cat | apply steady_call; apply collab ].

Ltac steady_chain :=
  repeat (apply steady_bind; [solve [steady_step] | intros ?]);
  try solve [steady_step].

Lemma steady_downsample_rays rays Hh Ww : steady (downsample_rays rays Hh Ww).
Proof. unfold downsample_rays. steady_chain. Qed.

Lemma steady_run_base_renderer ro rd lp bg kw :
  steady (run_base_renderer self ro rd lp bg kw).
Proof. unfold run_base_renderer. steady_chain. Qed.

Lemma steady_run_global_encoder x : steady (run_global_encoder self x).
Proof. unfold run_global_encoder. steady_chain. Qed.

Lemma steady_run_local_encoder x : steady (run_local_encoder self x).
Proof. unfold run_local_encoder. steady_chain. Qed.

Lemma steady_run_generator x g : steady (run_generator self x g).
Proof. unfold run_generator. steady_chain. Qed.

Lemma steady_DiagonalGaussianDistribution x :
  steady (DiagonalGaussianDistribution x).
Proof. unfold DiagonalGaussianDistribution. steady_chain. Qed.

Lemma steady_sample d : steady (sample d).
Proof. unfold sample. steady_chain. Qed.

Ltac steady_block :=
  first
    [ steady_step | apply steady_downsample_rays
    | apply steady_run_base_renderer | apply steady_run_global_encoder
    | apply steady_run_local_encoder | apply steady_run_generator
    | apply steady_DiagonalGaussianDistribution | apply steady_sample ].

Ltac steady_blocks :=
  repeat (apply steady_bind; [solve [steady_block] | intros ?]);
  try solve [steady_block].

Lemma steady_guidance_branch level gt_rgb lr_rgb posterior z_map :
  steady (guidance_branch self level gt_rgb lr_rgb posterior z_map).
Proof.
  unfold guidance_branch. repeat case_match; steady_blocks.
Qed.

(** [forward] is the level choice followed by a computation that is steady
    at every level. *)
Lemma forward_after_level rays_o rays_d light_positions bg_color gt_rgb
    multi_level_guidance kwargs B Hh Ww C :
  shape rays_o = [B; Hh; Ww; C] →
  ∃ K : Z → M (gmap string Value),
    (∀ w, forward self rays_o rays_d light_positions bg_color gt_rgb
            multi_level_guidance kwargs w =
          (choose_generator_level gt_rgb multi_level_guidance ≫= K) w) ∧
    ∀ level, steady (K level).
Proof.
  intros Hshape. eexists. split.
  - intros w. unfold forward, unpack_shape4. rewrite Hshape.
    unfold mbind at 1, M_bind at 1. cbn [liftR]. reflexivity.
  - intros level. cbv beta.
    do 3 (apply steady_bind; [solve [steady_block] | intros ?]). cbv zeta.
    do 7 (apply steady_bind; [solve [steady_block] | intros ?]).
    apply steady_bind; [apply steady_guidance_branch|]. intros [p o].
    steady_blocks.
Qed.

End Steady.

Section Law.
Context `{Platform} `{!DistributionClass}.
Implicit Types (self : GANVolumeRenderer) (w : World) (Ω : list Rng).

Lemma count_ext {A} (P Q : A → bool) (l : list A) :
  (∀ x, P x = Q x) → count P l = count Q l.
Proof.
  intros HPQ. unfold count. induction l as [|x l IH]; [done|].
  simpl. rewrite HPQ. destruct (Q x); simpl; by rewrite IH.
Qed.

(** The members that draw [v] are as many as the states left after [v]. *)
Lemma count_after_draw lo hi v Ω :
  count (λ g, bool_decide ((rng_randint lo hi g).1 = v)) Ω =
  length (after_draw lo hi v Ω).
Proof.
  unfold count, after_draw. induction Ω as [|g Ω IH]; [done|].
  simpl. destruct (bool_decide _); simpl; by rewrite IH.
Qed.

(** The members that draw [a], and then [b] once the generator was
    advanced by [T]. *)
Lemma count_after_two lo hi a b (T : Rng → Rng) Ω :
  count (λ g, bool_decide ((rng_randint lo hi g).1 = a) &&
              bool_decide ((rng_randint lo hi (T (rng_randint lo hi g).2)).1 = b))
    Ω =
  length (after_draw lo hi b (T <$> after_draw lo hi a Ω)).
Proof.
  unfold count, after_draw. induction Ω as [|g Ω IH]; [done|].
  simpl. destruct (bool_decide ((rng_randint lo hi g).1 = a)); simpl; [|done].
  destruct (bool_decide _); simpl; by rewrite IH.
Qed.

Lemma fair_S lo hi n Ω v :
  fair lo hi (S n) Ω = true → v ∈ randint_support lo hi →
  length (after_draw lo hi v Ω) * length (randint_support lo hi) = length Ω ∧
  fair lo hi n (after_draw lo hi v Ω) = true.
Proof.
  simpl. rewrite forallb_forall. intros Hall Hv%list_elem_of_In.
  apply Hall in Hv. apply andb_true_iff in Hv as [Hl Hf].
  by apply Nat.eqb_eq in Hl.
Qed.

(** With a ground truth and the flag, the level choice is the draw. *)
Lemma choose_level_with_rng gt g w :
  choose_generator_level (Some gt) true (with_rng g w) =
    (Ok (rng_randint 0 3 g).1,
     mkWorld (mkState (heap (st w)) (rng_randint 0 3 g).2 (ext (st w)))
       (training w) (next_id w)
       (trace w ++ [ERandint 0 3 [1] [(rng_randint 0 3 g).1]])).
Proof. by rewrite choose_level_drawn. Qed.

Lemma level_uniform gt w Ω v :
  fair 0 3 1 Ω = true → v ∈ randint_support 0 3 →
  count (λ g, level_is v
                (choose_generator_level (Some gt) true (with_rng g w)).1) Ω * 3 =
  length Ω.
Proof.
  intros Hfair Hv.
  rewrite (count_ext _ (λ g, bool_decide ((rng_randint 0 3 g).1 = v))).
  - rewrite count_after_draw. by destruct (fair_S _ _ _ _ _ Hfair Hv).
  - intros g. by rewrite choose_level_with_rng.
Qed.

Lemma levels_independent self rays_o rays_d light_positions bg_color gt gt'
    kwargs B Hh Ww C w Ω a b :
  collaborators (λ A, oblivious) self →
  shape rays_o = [B; Hh; Ww; C] →
  fair 0 3 2 Ω = true →
  a ∈ randint_support 0 3 → b ∈ randint_support 0 3 →
  count (λ g,
      level_is a (choose_generator_level (Some gt) true (with_rng g w)).1 &&
      level_is b
        (choose_generator_level (Some gt') true
           (forward self rays_o rays_d light_positions bg_color (Some gt)
              true kwargs (with_rng g w)).2).1) Ω * 9 =
  length Ω.
Proof.
  intros Hcollab Hshape Hfair Ha Hb.
  destruct (forward_after_level self Hcollab rays_o rays_d light_positions
              bg_color (Some gt) true kwargs B Hh Ww C Hshape)
    as (K & HK & HKs).
  destruct (HKs a w) as (T & HT & Hrel).
  rewrite (count_ext _
    (λ g, bool_decide ((rng_randint 0 3 g).1 = a) &&
          bool_decide ((rng_randint 0 3 (T (rng_randint 0 3 g).2)).1 = b))).
  - rewrite count_after_two.
    destruct (fair_S _ _ _ _ _ Hfair Ha) as [Hla Hfa].
    apply HT in Hfa.
    destruct (fair_S _ _ _ _ _ Hfa Hb) as [Hlb _].
    rewrite length_fmap in Hlb.
    change (length (randint_support 0 3)) with 3 in *. lia.
  - intros g. rewrite choose_level_with_rng. cbn [level_is fst].
    case_bool_decide as Hda; [|done]. cbn [andb]. f_equal.
    rewrite HK. unfold mbind, M_bind. rewrite choose_level_with_rng, Hda.
    match goal with |- context [K a ?w1] =>
      destruct (Hrel w1) as (_ & _ & Hg); [by repeat split|];
      destruct (K a w1) as [r w2]
    end.
    cbn [snd st rng] in *.
    rewrite choose_level_drawn. cbn [fst level_is]. by rewrite Hg.
Qed.

End Law.

Section LevelClaim.
Context `{Platform} `{!DistributionClass}.
Implicit Types (self : GANVolumeRenderer) (w : World) (Ω : list Rng).

Lemma count_pos_elem {A} (P : A → bool) (l : list A) :
  0 < count P l → ∃ x, x ∈ l ∧ P x = true.
Proof.
  unfold count. induction l as [|x l IH]; simpl; [lia|].
  destruct (P x) eqn:HP.
  - intros _. exists x. split; [apply list_elem_of_here|done].
  - intros [y [Hy HPy]]%IH. exists y. split; [by apply list_elem_of_further|done].
Qed.


End LevelClaim.

Section LevelRuns.
Import Demo Dice.

Lemma oblivious_still {A} (f : State → Res A * State) :
  (∀ s s', alike_state s s' →
     (f s').1 = (f s).1 ∧ alike_state (f s).2 (f s').2 ∧
     rng (f s').2 = rng s') →
  oblivious f.
Proof. intros Hf s. exists id. split; [apply fair_map_id|]. by apply Hf. Qed.

Ltac demo_oblivious :=
  apply oblivious_still; intros s s' [Hh He];
  unfold nerf_forward, fresh_tensor; repeat case_match;
  unfold alike_state; simpl in *; rewrite ?length_app; simpl;
  rewrite ?Hh, ?He; done.

Lemma demo_oblivious_collaborators : collaborators (λ A, oblivious) self.
Proof.
  unfold collaborators. split_and!; intros.
  - cbn [vr_forward base_renderer self nerf]. demo_oblivious.
  - cbn [global_encoder self]. demo_oblivious.
  - cbn [local_encoder self]. demo_oblivious.
  - cbn [generator self]. demo_oblivious.
  - cbn [dist_init gaussian]. demo_oblivious.
  - cbn [dist_sample gaussian]. demo_oblivious.
Qed.

Lemma two_draws_fair : fair 0 3 2 two_draws = true ∧ fair 0 3 1 two_draws = true.
Proof. split; vm_compute; reflexivity. Qed.

(** The nine tapes: the first call is at level 2 and the next one at
    level 1 on exactly one of them. *)
Example two_draws_level_2_then_1 :
  count (λ g,
      level_is 2
        (choose_generator_level (Some (gt_rgb 8)) true (with_rng g (world 0))).1 &&
      level_is 1
        (choose_generator_level (Some (gt_rgb 8)) true
           (forward self (rays_o 8) (rays_d 8) light_positions None
              (Some (gt_rgb 8)) true ∅ (with_rng g (world 0))).2).1)
    two_draws = 1.
Proof. vm_compute. reflexivity. Qed.


End LevelRuns.
